(** * The Play Store dashboard: data pipelines and visibility gate

    A shallow embedding of [dashboard.py].  The script loads one table of
    application records and derives two chart-ready tables from it:

    - [prepare_choropleth_data] (the Geo pipeline), and
    - [prepare_time_series_data] (the Growth pipeline);

    it then decides from the hour of the day in IST which of the two charts
    is shown ([show_map], [show_chart]).

    Modelling conventions.
    - A Python [str] is a [string]; character classes and case mapping are
      the ASCII ones (bytes above 127 are never digits, spaces or letters).
    - A Python [float], and every cell of a float64 column, is an IEEE 754
      binary64 value, represented by [spec_float] with the operations of
      the standard library's [SpecFloat] at precision 53; a missing value
      of a float column is NaN, as in pandas.
    - A data frame is the list of its rows, in row order.  The table is
      one that the loader read with [App], [Category] and [Installs] as
      text columns, which is what the [.str] accessors of the script
      need; on a table where one of them was read as numbers [.str]
      raises at once, and such a run is not described here.
    - Library functions whose behaviour the script relies on are modelled
      next to their use: [float], [re] character classes, [pandas]
      selection, [groupby], [sort_values], [pct_change], [to_numeric],
      [random.choices] and [pycountry.countries.lookup].  The date parser
      [pandas.to_datetime] and the random source are parameters; the
      parser may read the clock, since pandas reads the texts "now" and
      "today" as the time of the call. *)

From Stdlib Require Import ZArith NArith List Bool Ascii String Lia.
From Stdlib Require Import Permutation Sorted OrderedTypeEx.
From Stdlib Require Import Floats.SpecFloat.
Import ListNotations.

Open Scope string_scope.
Open Scope Z_scope.
Open Scope list_scope.

(** ** Text *)

Definition is_digit (c : ascii) : bool :=
  let n := N_of_ascii c in ((48 <=? n) && (n <=? 57))%N.

(** White space as [str.strip] sees it in the ASCII range: TAB, LF, VT,
    FF, CR, FS, GS, RS, US and the space. *)
Definition is_space (c : ascii) : bool :=
  let n := N_of_ascii c in
  (((9 <=? n) && (n <=? 13)) || ((28 <=? n) && (n <=? 32)))%N.

Definition lower_char (c : ascii) : ascii :=
  let n := N_of_ascii c in
  if ((65 <=? n) && (n <=? 90))%N then ascii_of_N (n + 32) else c.

(** [str.lower] *)
Fixpoint lower (s : string) : string :=
  match s with
  | EmptyString => EmptyString
  | String c r => String (lower_char c) (lower r)
  end.

Fixpoint lstrip (s : string) : string :=
  match s with
  | EmptyString => EmptyString
  | String c r => if is_space c then lstrip r else s
  end.

Fixpoint rstrip (s : string) : string :=
  match s with
  | EmptyString => EmptyString
  | String c r =>
      match rstrip r with
      | EmptyString => if is_space c then EmptyString else String c EmptyString
      | r' => String c r'
      end
  end.

(** [str.strip] *)
Definition strip (s : string) : string := rstrip (lstrip s).

(** [re.search('[0-9]', s) is not None] *)
Fixpoint contains_digit (s : string) : bool :=
  match s with
  | EmptyString => false
  | String c r => is_digit c || contains_digit r
  end.

Definition is_plus_or_comma (c : ascii) : bool :=
  Ascii.eqb c "+" || Ascii.eqb c ",".

(** [re.sub('[+,]', '', s)] *)
Fixpoint remove_plus_comma (s : string) : string :=
  match s with
  | EmptyString => EmptyString
  | String c r =>
      if is_plus_or_comma c then remove_plus_comma r
      else String c (remove_plus_comma r)
  end.

(** [s.startswith(p)] and [s.startswith((p1, ..., pn))] *)
Definition startswith (p s : string) : bool := String.prefix p s.

Definition startswith_any (ps : list string) (s : string) : bool :=
  existsb (fun p => startswith p s) ps.

(** [p in s] *)
Fixpoint contains (p s : string) : bool :=
  String.prefix p s ||
  match s with
  | EmptyString => false
  | String _ r => contains p r
  end.

(** [re.search(p, s, re.IGNORECASE) is not None] for a literal [p], with
    the ASCII letter cases: a letter outside ASCII that Python's regex
    engine folds onto an ASCII one (the long s, U+017F, onto "s") is not
    matched here. *)
Definition contains_nocase (p s : string) : bool :=
  contains (lower p) (lower s).

(** ** Binary64 numbers *)

Definition float := spec_float.
Definition prec := 53.
Definition emax := 1024.

Definition fadd : float -> float -> float := SFadd prec emax.
Definition fsub : float -> float -> float := SFsub prec emax.
Definition fdiv : float -> float -> float := SFdiv prec emax.
(** [x < y]; false as soon as one side is NaN *)
Definition flt : float -> float -> bool := SFltb.
Definition fle : float -> float -> bool := SFleb.
(** [x > y] *)
Definition fgt (x y : float) : bool := flt y x.

Definition is_nan (x : float) : bool :=
  match x with S754_nan => true | _ => false end.

Definition nan : float := S754_nan.

(** The float64 nearest to [(-1)^neg * m * 10^e10], ties to even:
    how a decimal literal or a decimal string becomes a float. *)
Definition of_decimal (neg : bool) (m e10 : Z) : float :=
  match m with
  | Z0 => S754_zero neg
  | Zneg _ => S754_nan
  | Zpos p =>
      if 0 <=? e10 then
        match Zpos p * 10 ^ e10 with
        | Zpos q => binary_round prec emax neg q 0
        | _ => S754_nan
        end
      else
        let '(q, e, l) :=
          SFdiv_core_binary prec emax (Zpos p) 0 (10 ^ (- e10)) 0 in
        binary_round_aux prec emax neg q e l
  end.

(** An [int] used where a float is expected *)
Definition of_Z (z : Z) : float := binary_normalize prec emax z 0 false.

(** The integer a float stands for, when it stands for one. *)
Definition integer_value (x : float) : option Z :=
  match x with
  | S754_zero _ => Some 0
  | S754_finite s m e =>
      let z := if s then Zneg m else Zpos m in
      if 0 <=? e then Some (z * 2 ^ e)
      else if Zpos m mod 2 ^ (- e) =? 0 then Some (z / 2 ^ (- e))
      else None
  | _ => None
  end.

(** White space for the C routines behind [float] and [to_numeric]: TAB to
    CR and the space. *)
Definition is_cspace (c : ascii) : bool :=
  let n := N_of_ascii c in (((9 <=? n) && (n <=? 13)) || (n =? 32))%N.

Fixpoint lstrip_c (s : string) : string :=
  match s with
  | EmptyString => EmptyString
  | String c r => if is_cspace c then lstrip_c r else s
  end.

Fixpoint rstrip_c (s : string) : string :=
  match s with
  | EmptyString => EmptyString
  | String c r =>
      match rstrip_c r with
      | EmptyString => if is_cspace c then EmptyString else String c EmptyString
      | r' => String c r'
      end
  end.

(** ** Decimal numerals

    The numeral grammar shared by Python's [float] and pandas'
    [to_numeric]: digits with an optional point, at least one digit in all,
    then an optional exponent with at least one digit. *)

Definition digit_val (c : ascii) : Z := Z.of_N (N_of_ascii c) - 48.

(** Reads a maximal run of digits: the accumulated value, the number of
    digits read, and the rest of the text. *)
Fixpoint read_digits (acc cnt : Z) (s : string) : Z * Z * string :=
  match s with
  | String c r =>
      if is_digit c then read_digits (10 * acc + digit_val c) (cnt + 1) r
      else (acc, cnt, s)
  | EmptyString => (acc, cnt, s)
  end.

Definition read_sign (s : string) : bool * string :=
  match s with
  | String "-" r => (true, r)
  | String "+" r => (false, r)
  | _ => (false, s)
  end.

Definition is_exp_mark (c : ascii) : bool :=
  Ascii.eqb c "e" || Ascii.eqb c "E".

(** The mantissa and the decimal exponent of an unsigned numeral that
    spans the whole text. *)
Definition parse_number (s : string) : option (Z * Z) :=
  let '(i, ni, r1) := read_digits 0 0 s in
  let '(m, nf, r2) :=
    match r1 with
    | String "." r => read_digits i 0 r
    | _ => (i, 0, r1)
    end in
  if ni + nf =? 0 then None
  else
    match r2 with
    | EmptyString => Some (m, - nf)
    | String c r3 =>
        if is_exp_mark c then
          let '(eneg, r4) := read_sign r3 in
          let '(x, nx, r5) := read_digits 0 0 r4 in
          if nx =? 0 then None
          else
            match r5 with
            | EmptyString => Some (m, (if eneg then - x else x) - nf)
            | _ => None
            end
        else None
    end.

(** A signed numeral, or one of the words [inf], [infinity], [nan] in any
    letter case. *)
Definition parse_signed (s : string) : option float :=
  let '(neg, body) := read_sign s in
  let w := lower body in
  if String.eqb w "inf" || String.eqb w "infinity" then Some (S754_infinity neg)
  else if String.eqb w "nan" then Some S754_nan
  else
    match parse_number body with
    | Some (m, e) => Some (of_decimal neg m e)
    | None => None
    end.

(** Python allows one underscore between two digits; [float] checks that
    and drops the underscores before it parses. *)
Fixpoint drop_underscores (prev : option ascii) (s : string) : option string :=
  match s with
  | EmptyString =>
      match prev with
      | Some "_"%char => None
      | _ => Some EmptyString
      end
  | String c r =>
      if Ascii.eqb c "_" then
        match prev with
        | Some p => if is_digit p then drop_underscores (Some c) r else None
        | None => None
        end
      else
        match prev with
        | Some "_"%char =>
            if is_digit c then option_map (String c) (drop_underscores (Some c) r)
            else None
        | _ => option_map (String c) (drop_underscores (Some c) r)
        end
  end.

(** [float(s)] for a string [s]: white space is cut at both ends, then
    the underscores are checked and dropped, then the text is read;
    [None] stands for [ValueError].  Digits and blanks are the ASCII
    ones: [float] also reads decimal digits of other scripts, which are
    not read here. *)
Definition py_float (s : string) : option float :=
  match drop_underscores None (rstrip_c (lstrip_c s)) with
  | Some s' => parse_signed s'
  | None => None
  end.

(** ** pandas: numeric coercion, grouped sums, ordering, relative change *)

Definition mem_string (s : string) (l : list string) : bool :=
  existsb (String.eqb s) l.

(** [pd.to_numeric(x, errors='coerce')] on one cell: a missing cell and a
    text that is not a number both give NaN. *)
Definition to_numeric (x : option string) : float :=
  match x with
  | None => nan
  | Some s =>
      let '(neg, body) := read_sign (rstrip_c (lstrip_c s)) in
      match parse_number body with
      | Some (m, e) => of_decimal neg m e
      | None =>
          let w := lower s in
          if mem_string w ["inf"; "+inf"; "infinity"; "+infinity"]
          then S754_infinity false
          else if mem_string w ["-inf"; "-infinity"] then S754_infinity true
          else nan
      end
  end.

Section GroupBy.
Context {K : Type}.
Variable cmp : K -> K -> comparison.

(** One step of the grouped sum.  Each group keeps its running sum and
    the compensation term of pandas' compensated summation; groups are
    kept in increasing key order; missing values are skipped. *)
Definition kahan_step (acc : float * float) (v : float) : float * float :=
  if is_nan v then acc
  else
    let '(sumx, comp) := acc in
    let y := fsub v comp in
    let t := fadd sumx y in
    let c := fsub (fsub t sumx) y in
    (t, if is_nan c then of_Z 0 else c).

Fixpoint add_to_group (k : K) (v : float) (acc : list (K * (float * float)))
  : list (K * (float * float)) :=
  match acc with
  | [] => [(k, kahan_step (of_Z 0, of_Z 0) v)]
  | (k', s) :: rest =>
      match cmp k k' with
      | Eq => (k', kahan_step s v) :: rest
      | Lt => (k, kahan_step (of_Z 0, of_Z 0) v) :: acc
      | Gt => (k', s) :: add_to_group k v rest
      end
  end.

Definition group_states (rows : list (K * float)) : list (K * (float * float)) :=
  fold_left (fun acc kv => add_to_group (fst kv) (snd kv) acc) rows [].

(** [df.groupby(key)[col].sum()]: one entry per key, keys increasing. *)
Definition groupby_sum (rows : list (K * float)) : list (K * float) :=
  map (fun ks => (fst ks, fst (snd ks))) (group_states rows).
End GroupBy.

Section SortValues.
Context {K : Type}.

Fixpoint insert_desc (x : K * float) (l : list (K * float)) : list (K * float) :=
  match l with
  | [] => [x]
  | y :: r => if flt (snd x) (snd y) then y :: insert_desc x r else x :: l
  end.

(** [s.sort_values(ascending=False)] on a series without missing
    values.  Entries with equal values are kept in index order here;
    pandas leaves their order to its sorting routine. *)
Definition sort_values_desc (s : list (K * float)) : list (K * float) :=
  fold_right insert_desc [] s.
End SortValues.

Section PctChange.
Context {K : Type}.
Variable keq : K -> K -> bool.

Definition last_of (k : K) (seen : list (K * float)) : option float :=
  option_map snd (find (fun p => keq (fst p) k) seen).

(** [s.groupby(key).pct_change()]: each entry over the previous entry
    of the same group, minus one; NaN where the group has no previous
    entry.  [seen] holds the entries already passed, latest first. *)
Fixpoint pct_change_from (seen rows : list (K * float)) : list float :=
  match rows with
  | [] => []
  | (k, v) :: rest =>
      (match last_of k seen with
       | Some p => fsub (fdiv v p) (of_Z 1)
       | None => nan
       end) :: pct_change_from ((k, v) :: seen) rest
  end.

Definition pct_change (rows : list (K * float)) : list float :=
  pct_change_from [] rows.
End PctChange.

(** ** Time stamps *)

Record Timestamp := mkTimestamp {
  ts_year : Z;
  ts_month : Z;
  ts_day : Z;
  ts_time : Z  (* nanoseconds since midnight *)
}.

Definition lex (c1 c2 : comparison) : comparison :=
  match c1 with Eq => c2 | _ => c1 end.

Definition ts_compare (a b : Timestamp) : comparison :=
  lex (ts_year a ?= ts_year b)
   (lex (ts_month a ?= ts_month b)
     (lex (ts_day a ?= ts_day b) (ts_time a ?= ts_time b))).

(** [t.to_period('M').to_timestamp()]: the first instant of the month *)
Definition month_start (t : Timestamp) : Timestamp :=
  mkTimestamp (ts_year t) (ts_month t) 1 0.

(** A date parser for texts of the form YYYY-MM-DD, one of the formats
    [pandas.to_datetime] reads; used to run the pipeline on examples. *)
Definition is_leap (y : Z) : bool :=
  ((y mod 4 =? 0) && negb (y mod 100 =? 0)) || (y mod 400 =? 0).

Definition days_in_month (y m : Z) : Z :=
  if m =? 2 then (if is_leap y then 29 else 28)
  else if (m =? 4) || (m =? 6) || (m =? 9) || (m =? 11) then 30
  else 31.

Definition iso_date (s : string) : option Timestamp :=
  let '(y, ny, r1) := read_digits 0 0 s in
  match r1 with
  | String "-" r2 =>
      let '(m, nm, r3) := read_digits 0 0 r2 in
      match r3 with
      | String "-" r4 =>
          let '(d, nd, r5) := read_digits 0 0 r4 in
          match r5 with
          | EmptyString =>
              if (ny =? 4) && (nm =? 2) && (nd =? 2)
                 && (1 <=? m) && (m <=? 12)
                 && (1 <=? d) && (d <=? days_in_month y m)
              then Some (mkTimestamp y m d 0)
              else None
          | _ => None
          end
      | _ => None
      end
  | _ => None
  end.

Definition to_datetime_iso (col : list (option string)) : list (option Timestamp) :=
  map (fun x => match x with Some s => iso_date s | None => None end) col.


(** ** pycountry and random *)

Record CountryEntry := mkCountry {
  alpha_2 : string;
  alpha_3 : string;
  flag : string;
  name : string;
  numeric : string;
  official_name : option string;
  common_name : option string
}.

(** The indexed fields of a country, in index order. *)
Definition country_fields : list (CountryEntry -> option string) :=
  [ (fun c => Some (alpha_2 c)); (fun c => Some (alpha_3 c));
    (fun c => Some (flag c)); (fun c => Some (name c));
    (fun c => Some (numeric c)); official_name; common_name ].

Definition field_is (value : string) (field : CountryEntry -> option string)
  (c : CountryEntry) : bool :=
  match field c with
  | Some v => String.eqb (lower v) value
  | None => false
  end.

(** One index of the database: the entry stored under a lower-cased
    value; an entry loaded later replaces an earlier one. *)
Definition index_get (db : list CountryEntry) (value : string)
  (field : CountryEntry -> option string) : option CountryEntry :=
  find (field_is value field) (rev db).

Fixpoint first_some {A B : Type} (f : A -> option B) (l : list A) : option B :=
  match l with
  | [] => None
  | a :: r => match f a with Some b => Some b | None => first_some f r end
  end.

(** [pycountry.countries.lookup(value)]; [None] stands for [LookupError].
    The value and the indexed fields are lower-cased with the ASCII
    [lower]: a capital letter outside ASCII is matched here only by
    itself, where pycountry also matches its small letter. *)
Definition lookup (db : list CountryEntry) (value : string) : option CountryEntry :=
  first_some (index_get db (lower value)) country_fields.

(** The random source: [g i] stands for the [i]-th output of [random()],
    the fraction [(g i mod 2^53) / 2^53]. *)
Definition Rng := nat -> Z.

(** The place picked in a population of [n] for the fraction [u / 2^53]:
    the whole part of the product, taken exactly.  Python floors the
    binary64 product, which for some fractions is rounded up to the next
    whole number, so that it picks the next place; both are places of the
    population, and nothing below depends on which place is picked. *)

Definition choice_index (u : Z) (n : nat) : nat :=
  Z.to_nat ((u mod 2 ^ 53) * Z.of_nat n / 2 ^ 53).

(** [random.choices(population, k=k)]; [None] stands for the [IndexError]
    raised when a draw is made from an empty population. *)
Definition choices (g : Rng) (population : list string) (k : nat)
  : option (list string) :=
  match population, k with
  | [], S _ => None
  | _, _ =>
      Some (map (fun i => nth (choice_index (g i) (List.length population)) population "")
                (seq 0 k))
  end.

(** ** The data frame *)

Record RawRecord := mkRaw {
  App : string;
  Category : string;
  Installs : option string;
  Reviews : option string;
  Last_Updated : option string
}.

(** A row once its [Installs] cell holds a number. *)
Record CleanedInstallRecord := mkCleaned {
  raw : RawRecord;
  installs : float
}.

(** ** The install-count cleaner (lines 23-35 and 76-88) *)

Definition clean_installs (x : string) : option float :=
  if String.eqb (lower (strip x)) "free" then None
  else py_float x.

(** The cleaner without its first branch. *)
Definition clean_installs_no_free (x : string) : option float := py_float x.

(** [df = df[df['Installs'].str.contains('[0-9]', na=False)]] followed by
    [df['Installs'] = df['Installs'].str.replace('[+,]', '', regex=True)],
    on a column of texts and missing cells. *)
Definition digits_only (df : list RawRecord) : list (RawRecord * string) :=
  flat_map (fun r =>
    match Installs r with
    | Some s => if contains_digit s then [(r, remove_plus_comma s)] else []
    | None => []
    end) df.

(** [df['Installs'] = df['Installs'].apply(clean_installs)] followed by
    [df = df.dropna(subset=['Installs'])] *)
Definition apply_dropna (cleaner : string -> option float)
  (df : list (RawRecord * string)) : list CleanedInstallRecord :=
  flat_map (fun rs =>
    match cleaner (snd rs) with
    | Some v => if is_nan v then [] else [mkCleaned (fst rs) v]
    | None => []
    end) df.

Definition clean_stage (cleaner : string -> option float) (df : list RawRecord)
  : list CleanedInstallRecord :=
  apply_dropna cleaner (digits_only df).

(** What the head of a pipeline makes of one raw [Installs] cell: the
    number the row carries on, or [None] when the row is dropped. *)
Definition cleaned_installs (x : option string) : option float :=
  match clean_stage clean_installs [mkRaw "" "" x None None] with
  | r :: _ => Some (installs r)
  | [] => None
  end.

(** The same outcome written out: the text must hold a digit, loses its
    '+' and ',' and is then read by [float]. *)
Definition installs_outcome (x : option string) : option float :=
  match x with
  | Some s =>
      if contains_digit s then
        match py_float (remove_plus_comma s) with
        | Some v => if is_nan v then None else Some v
        | None => None
        end
      else None
  | None => None
  end.

(** ** The Geo pipeline (lines 17-57) *)

Record GeoRecord := mkGeo {
  geo_row : CleanedInstallRecord;
  Country : string;
  iso_alpha : string
}.

Definition unwanted_prefixes : list string := ["A"; "C"; "G"; "S"].

(** [df = df[~df['Category'].str.startswith(('A', 'C', 'G', 'S'))]] *)
Definition remove_unwanted (df : list CleanedInstallRecord) : list CleanedInstallRecord :=
  filter (fun r => negb (startswith_any unwanted_prefixes (Category (raw r)))) df.

(** [top_categories = df.groupby('Category')['Installs'].sum()] *)
Definition top_categories (df : list CleanedInstallRecord) : list (string * float) :=
  groupby_sum String.compare (map (fun r => (Category (raw r), installs r)) df).

(** [top_categories[top_categories > 1_000_000]
       .sort_values(ascending=False).head(5)] *)
Definition top5_series (totals : list (string * float)) : list (string * float) :=
  firstn 5 (sort_values_desc
              (filter (fun kv => fgt (snd kv) (of_Z 1000000)) totals)).

(** [... .index.tolist()] *)
Definition top5 (totals : list (string * float)) : list string :=
  map fst (top5_series totals).

(** [df = df[df['Category'].isin(top5)].copy()] *)
Definition restrict_to (cats : list string) (df : list CleanedInstallRecord)
  : list CleanedInstallRecord :=
  filter (fun r => mem_string (Category (raw r)) cats) df.

(** The rows that reach the country assignment. *)
Definition geo_rows (cleaner : string -> option float) (df_apps : list RawRecord)
  : list CleanedInstallRecord :=
  let df := remove_unwanted (clean_stage cleaner df_apps) in
  restrict_to (top5 (top_categories df)) df.

Definition get_iso3 (db : list CountryEntry) (country_name : string) : option string :=
  option_map alpha_3 (lookup db country_name).

(** [df['iso_alpha'] = df['Country'].apply(get_iso3)] followed by
    [df = df.dropna(subset=['iso_alpha'])] *)
Definition resolve_dropna (db : list CountryEntry)
  (df : list (CleanedInstallRecord * string)) : list GeoRecord :=
  flat_map (fun rc =>
    match get_iso3 db (snd rc) with
    | Some code => [mkGeo (fst rc) (snd rc) code]
    | None => []
    end) df.

Definition prepare_choropleth_data_with (cleaner : string -> option float)
  (db : list CountryEntry) (g : Rng) (df_apps : list RawRecord)
  : option (list GeoRecord) :=
  let df := geo_rows cleaner df_apps in
  let countries := map name db in
  match choices g countries (List.length df) with
  | Some drawn => Some (resolve_dropna db (combine df drawn))
  | None => None
  end.

Definition prepare_choropleth_data := prepare_choropleth_data_with clean_installs.

(** ** The Growth pipeline (lines 73-121) *)

Record ReviewedRecord := mkReviewed {
  rev_row : CleanedInstallRecord;
  reviews : float
}.

Record DatedRecord := mkDated {
  dated_row : ReviewedRecord;
  Translated_Category : string;
  last_updated : Timestamp;
  Month : Timestamp
}.

Record GrowthBucket := mkBucket {
  bucket_Month : Timestamp;
  bucket_Category : string;
  bucket_Installs : float;
  MoM_Growth : float;
  Significant_Growth : bool
}.

(** [df['Reviews'] = pd.to_numeric(df['Reviews'], errors='coerce')],
    [df = df.dropna(subset=['Reviews'])], [df = df[df['Reviews'] > 500]] *)
Definition enough_reviews (df : list CleanedInstallRecord) : list ReviewedRecord :=
  filter (fun r => fgt (reviews r) (of_Z 500))
    (filter (fun r => negb (is_nan (reviews r)))
       (map (fun r => mkReviewed r (to_numeric (Reviews (raw r)))) df)).

Definition wanted_prefixes : list string := ["E"; "C"; "B"].

Definition category_of (r : ReviewedRecord) : string := Category (raw (rev_row r)).
Definition app_of (r : ReviewedRecord) : string := App (raw (rev_row r)).

(** [df = df[df['Category'].str.startswith(('E', 'C', 'B'))]] *)
Definition keep_wanted (df : list ReviewedRecord) : list ReviewedRecord :=
  filter (fun r => startswith_any wanted_prefixes (category_of r)) df.

(** [df = df[~df['App'].str.lower().str.startswith(('x', 'y', 'z')) &
            ~df['App'].str.contains('S', case=False)]] *)
Definition keep_app_names (df : list ReviewedRecord) : list ReviewedRecord :=
  filter (fun r =>
            negb (startswith_any ["x"; "y"; "z"] (lower (app_of r)))
            && negb (contains_nocase "S" (app_of r))) df.

Definition translations : list (string * string) :=
  [ ("Beauty", "सुंदरता"); ("Business", "வர்த்தகம்"); ("Dating", "Dating") ].

Definition dict_get (d : list (string * string)) (k : string) : option string :=
  option_map snd (find (fun kv => String.eqb (fst kv) k) d).

(** [df['Category'].map(translations).fillna(df['Category'])] on one cell *)
Definition translate (category : string) : string :=
  match dict_get translations category with
  | Some label => label
  | None => category
  end.

Definition key_compare (a b : Timestamp * string) : comparison :=
  lex (ts_compare (fst a) (fst b)) (String.compare (snd a) (snd b)).

Section TimeSeries.
(** [pd.to_datetime(column, errors='coerce')]: one parsed cell, or
    [None] for NaT, per cell of the column. *)
Variable to_datetime : list (option string) -> list (option Timestamp).
Variable cleaner : string -> option float.

(** Lines 106-110: the label, the parsed date without the rows where it
    is missing, and the month. *)
Definition with_dates (df : list ReviewedRecord) : list DatedRecord :=
  flat_map (fun rd =>
    match snd rd with
    | Some t => [mkDated (fst rd) (translate (category_of (fst rd))) t (month_start t)]
    | None => []
    end)
    (combine df (to_datetime (map (fun r => Last_Updated (raw (rev_row r))) df))).

(** The rows that are summed. *)
Definition growth_rows (df_apps : list RawRecord) : list DatedRecord :=
  with_dates (keep_app_names (keep_wanted (enough_reviews (clean_stage cleaner df_apps)))).

(** [df.groupby(['Month', 'Translated_Category'])['Installs'].sum()
      .reset_index()] *)
Definition group_months (df : list DatedRecord) : list ((Timestamp * string) * float) :=
  groupby_sum key_compare
    (map (fun r => ((Month r, Translated_Category r), installs (rev_row (dated_row r)))) df).

(** Lines 118-119 *)
Definition add_growth (grouped : list ((Timestamp * string) * float)) : list GrowthBucket :=
  map (fun rg =>
         let '((m, c, v), g) := rg in
         mkBucket m c v g (fgt g (of_decimal false 20 (-2))))
      (combine grouped
         (pct_change String.eqb (map (fun r => (snd (fst r), snd r)) grouped))).

Definition prepare_time_series_data_with (df_apps : list RawRecord) : list GrowthBucket :=
  add_growth (group_months (growth_rows df_apps)).
End TimeSeries.

Definition prepare_time_series_data
  (to_datetime : list (option string) -> list (option Timestamp)) :=
  prepare_time_series_data_with to_datetime clean_installs.

(** ** The visibility gate (lines 154-155) and the script as a whole *)

Record datetime := mkDatetime {
  hour : Z;
  minute : Z;
  second : Z
}.

(** [18 <= now.hour < 20] *)
Definition show_map (now : datetime) : bool := (18 <=? hour now) && (hour now <? 20).

(** [18 <= now.hour < 21] *)
Definition show_chart (now : datetime) : bool := (18 <=? hour now) && (hour now <? 21).

Record Dashboard := mkDashboard {
  choropleth_data : option (list GeoRecord);
  time_series_data : list GrowthBucket;
  map_shown : bool;
  chart_shown : bool
}.

(** The module body: both tables are prepared from the one loaded table,
    then the two windows are checked against the clock read at start.
    When [choropleth_data] is [None] the script has stopped at line 150;
    the other three fields then stand for lines it does not reach. *)
Definition dashboard (to_datetime : list (option string) -> list (option Timestamp))
  (db : list CountryEntry) (g : Rng) (now : datetime) (df_apps : list RawRecord)
  : Dashboard :=
  mkDashboard (prepare_choropleth_data db g df_apps)
              (prepare_time_series_data to_datetime df_apps)
              (show_map now) (show_chart now).

(** ** The time-series figure (lines 123-143) and the page (lines 157-182)

    The plotly and dash calls are parameters; what the script decides
    itself is which rows go into which trace, and which of a figure and
    its warning is put on the page. *)

(** [s.unique()]: the distinct values, in order of first appearance *)
Fixpoint unique_from (seen l : list string) : list string :=
  match l with
  | [] => []
  | x :: r =>
      if mem_string x seen then unique_from seen r
      else x :: unique_from (x :: seen) r
  end.

Definition unique (l : list string) : list string := unique_from [] l.

(** [cat_data = df_grouped[df_grouped['Translated_Category'] == category]] *)
Definition cat_data (df_grouped : list GrowthBucket) (category : string)
  : list GrowthBucket :=
  filter (fun b => String.eqb (bucket_Category b) category) df_grouped.

(** [growth_data = cat_data[cat_data['Significant_Growth']]] *)
Definition growth_data (df_grouped : list GrowthBucket) (category : string)
  : list GrowthBucket :=
  filter Significant_Growth (cat_data df_grouped category).

(** [f'{category} Growth > 20%'] *)
Definition overlay_name (category : string) : string :=
  (category ++ " Growth > 20%")%string.

(** The loop of lines 132-140: for each category, the name of the shaded
    trace and the rows drawn in it. *)
Definition growth_overlays (df_grouped : list GrowthBucket)
  : list (string * list GrowthBucket) :=
  map (fun category => (overlay_name category, growth_data df_grouped category))
      (unique (map bucket_Category df_grouped)).

Section Presentation.
Variables Figure Trace : Type.
(** [px.choropleth(...)] with its layout update: the body of
    [get_choropleth] *)
Variable get_choropleth : list GeoRecord -> Figure.
(** [px.line(df_grouped, x='Month', y='Installs',
    color='Translated_Category', title=...)] *)
Variable px_line : list GrowthBucket -> Figure.
(** [px.area(growth_data, x='Month', y='Installs').data] *)
Variable px_area : list GrowthBucket -> list Trace.
(** [.update_traces(opacity=0.3, name=name)] *)
Variable update_traces : string -> list Trace -> list Trace.
Variable add_traces : Figure -> list Trace -> Figure.
Variable update_layout : Figure -> Figure.

Definition plot_time_series (df_grouped : list GrowthBucket) : Figure :=
  update_layout
    (fold_left (fun fig ov => add_traces fig (update_traces (fst ov) (px_area (snd ov))))
               (growth_overlays df_grouped)
               (px_line df_grouped)).

(** The dash components the page is made of; an empty figure is [{}]. *)
Inductive Component :=
| Div (children : list Component)
| H1 (text : string) (style : list (string * string))
| Tabs (children : list Component)
| Tab (label : string) (children : list Component)
| Graph (id : string) (figure : option Figure)
| P (text : string) (style : list (string * string)).

(** [app.layout], from the two tables and the clock read at start *)
Definition app_layout (choropleth : list GeoRecord) (time_series : list GrowthBucket)
  (now : datetime) : Component :=
  Div
    [ H1 "📱 Play Store Combined Dashboard" [("textAlign", "center")];
      Tabs
        [ Tab "Global Choropleth Map"
            [ Graph "choropleth-map"
                (if show_map now then Some (get_choropleth choropleth) else None);
              P "Map is only visible between 6 PM and 8 PM IST."
                (if negb (show_map now)
                 then [("color", "red"); ("fontWeight", "bold")]
                 else [("display", "none")]) ];
          Tab "Time Series Chart"
            [ Graph "time-series-chart"
                (if show_chart now then Some (plot_time_series time_series) else None);
              P "Chart is only visible between 6 PM and 9 PM IST."
                (if negb (show_chart now)
                 then [("color", "red"); ("fontWeight", "bold")]
                 else [("display", "none")]) ] ] ].

End Presentation.

(** ** A small data set

    Two reference countries, a random source that alternates between
    them, and a table of seven applications: the values on which the
    statements below are run. *)

Definition example_db : list CountryEntry :=
  [ mkCountry "FR" "FRA" "" "France" "250" (Some "French Republic") None;
    mkCountry "IN" "IND" "" "India" "356" (Some "Republic of India") None ].

Definition example_rng : Rng := fun i => Z.of_nat i * 2 ^ 52.

Definition example_apps : list RawRecord :=
  [ mkRaw "Foo" "BUSINESS" (Some "10,000+") (Some "600") (Some "2018-03-05");
    mkRaw "Ledger" "BUSINESS" (Some "5,000,000+") (Some "1200") (Some "2018-04-17");
    mkRaw "Quiz" "EDUCATION" (Some "1,000,000+") (Some "501") (Some "2018-04-02");
    mkRaw "Chat" "COMMUNICATION" (Some "500,000,000+") (Some "70000") (Some "2018-04-30");
    mkRaw "Life Made WI-Fi Touchscreen Photo Frame" "1.9" (Some "Free") (Some "3.0M") None;
    mkRaw "Cards" "GAME" (Some "10,000,000+") (Some "4000") (Some "2018-05-20");
    mkRaw "Ledger 2" "BUSINESS" (Some "6,000,000+") (Some "800") (Some "2018-05-02") ].

(** One application of the BUSINESS category. *)
Definition business_row : RawRecord :=
  mkRaw "Foo" "BUSINESS" (Some "10,000+") (Some "600") (Some "2018-03-05").


(** One category over two months, 100 installs and then 110. *)
Definition two_months : list RawRecord :=
  [ mkRaw "Foo" "BUSINESS" (Some "100+") (Some "600") (Some "2018-01-15");
    mkRaw "Foo" "BUSINESS" (Some "110+") (Some "600") (Some "2018-02-15") ].

(** * Properties *)

(** ** Characters and text *)

Ltac each_char c :=
  destruct c as [[] [] [] [] [] [] [] []]; vm_compute; try reflexivity; try discriminate.

Lemma space_not_digit (c : ascii) : is_space c = true -> is_digit c = false.
Proof. each_char c; intros H; discriminate H. Qed.

Lemma plus_comma_not_digit (c : ascii) : is_plus_or_comma c = true -> is_digit c = false.
Proof. each_char c; intros H; discriminate H. Qed.

Lemma lower_char_digit (c : ascii) : is_digit (lower_char c) = is_digit c.
Proof. each_char c. Qed.

Lemma contains_digit_remove_plus_comma (s : string) :
  contains_digit (remove_plus_comma s) = contains_digit s.
Proof.
  induction s as [|c r IH]; simpl; [reflexivity|].
  destruct (is_plus_or_comma c) eqn:E; simpl.
  - now rewrite (plus_comma_not_digit c E).
  - now rewrite IH.
Qed.

Lemma contains_digit_lstrip (s : string) : contains_digit (lstrip s) = contains_digit s.
Proof.
  induction s as [|c r IH]; simpl; [reflexivity|].
  destruct (is_space c) eqn:E; simpl; [|reflexivity].
  now rewrite (space_not_digit c E).
Qed.

Lemma contains_digit_rstrip (s : string) : contains_digit (rstrip s) = contains_digit s.
Proof.
  induction s as [|c r IH]; simpl; [reflexivity|].
  destruct (rstrip r) as [|c' r'] eqn:E.
  - rewrite <- IH. simpl. destruct (is_space c) eqn:Es; simpl.
    + now rewrite (space_not_digit c Es).
    + now rewrite orb_false_r.
  - simpl. simpl in IH. now rewrite IH.
Qed.

Lemma contains_digit_lower (s : string) : contains_digit (lower s) = contains_digit s.
Proof.
  induction s as [|c r IH]; simpl; [reflexivity|].
  now rewrite lower_char_digit, IH.
Qed.

(** A text with a digit in it is not the word "free", however it is
    stripped and cased. *)
Lemma digit_not_free (s : string) :
  contains_digit s = true -> String.eqb (lower (strip (remove_plus_comma s))) "free" = false.
Proof.
  intros H. apply String.eqb_neq. intros E.
  assert (D : contains_digit (lower (strip (remove_plus_comma s))) = true).
  { unfold strip.
    now rewrite contains_digit_lower, contains_digit_rstrip, contains_digit_lstrip,
      contains_digit_remove_plus_comma. }
  rewrite E in D. discriminate D.
Qed.

(** ** The head of both pipelines *)

Lemma flat_map_ext_in {A B : Type} (f g : A -> list B) (l : list A) :
  (forall a, In a l -> f a = g a) -> flat_map f l = flat_map g l.
Proof.
  induction l as [|a l IH]; simpl; intros H; [reflexivity|].
  rewrite (H a (or_introl eq_refl)), IH; [reflexivity|].
  intros b Hb. apply H. now right.
Qed.

Lemma digits_only_has_digit (df : list RawRecord) (rs : RawRecord * string) :
  In rs (digits_only df) ->
  exists s, Installs (fst rs) = Some s /\ contains_digit s = true
            /\ snd rs = remove_plus_comma s /\ In (fst rs) df.
Proof.
  unfold digits_only. rewrite in_flat_map. intros [r [Hr Hin]].
  destruct (Installs r) as [s|] eqn:E; [|destruct Hin].
  destruct (contains_digit s) eqn:D; [|destruct Hin].
  destruct Hin as [<-|[]]. simpl. exists s. auto.
Qed.

Lemma clean_stage_no_free (df : list RawRecord) :
  clean_stage clean_installs_no_free df = clean_stage clean_installs df.
Proof.
  unfold clean_stage, apply_dropna. apply flat_map_ext_in.
  intros rs Hin. destruct (digits_only_has_digit df rs Hin) as [s [_ [D [E _]]]].
  unfold clean_installs, clean_installs_no_free.
  now rewrite E, (digit_not_free s D).
Qed.

Lemma clean_stage_in (df : list RawRecord) (r : CleanedInstallRecord) :
  In r (clean_stage clean_installs df) -> In (raw r) df /\ is_nan (installs r) = false.
Proof.
  unfold clean_stage, apply_dropna. rewrite in_flat_map. intros [rs [Hrs Hin]].
  destruct (digits_only_has_digit df rs Hrs) as [s [_ [_ [_ Hdf]]]].
  destruct (clean_installs (snd rs)) as [v|]; [|destruct Hin].
  destruct (is_nan v) eqn:N; [destruct Hin|].
  destruct Hin as [<-|[]]. simpl. auto.
Qed.

Lemma cleaned_installs_outcome (x : option string) :
  cleaned_installs x = installs_outcome x.
Proof.
  unfold cleaned_installs, clean_stage, digits_only, apply_dropna, installs_outcome.
  destruct x as [s|]; simpl; [|reflexivity].
  destruct (contains_digit s) eqn:D; simpl; [|reflexivity].
  unfold clean_installs. rewrite (digit_not_free s D).
  destruct (py_float (remove_plus_comma s)) as [v|]; [|reflexivity].
  now destruct (is_nan v).
Qed.

Lemma clean_stage_rowwise (df : list RawRecord) :
  clean_stage clean_installs df =
  flat_map (fun r => match cleaned_installs (Installs r) with
                     | Some v => [mkCleaned r v]
                     | None => []
                     end) df.
Proof.
  unfold clean_stage, digits_only, apply_dropna.
  induction df as [|r df IH]; simpl; [reflexivity|].
  rewrite flat_map_app, IH. f_equal.
  rewrite cleaned_installs_outcome. unfold installs_outcome.
  destruct (Installs r) as [s|]; simpl; [|reflexivity].
  destruct (contains_digit s) eqn:D; simpl; [|reflexivity].
  unfold clean_installs. rewrite (digit_not_free s D).
  destruct (py_float (remove_plus_comma s)) as [v|]; [|reflexivity].
  now destruct (is_nan v).
Qed.

(** C1.  The install-count cleaner at the head of both pipelines turns
    "1,000,000+" into the number 1000000 and "0+" into 0, and drops the
    rows that hold "Free" or "abc" (they are absent, not zero).  For
    every raw cell the outcome is: no digit in the text, or a text that
    [float] does not read once every '+' and ',' is removed, gives no
    row; otherwise the row carries the number read from the text without
    its '+' and ','.  Both pipelines start from that same stage. *)
Theorem installs_cleaner_behaviour :
  cleaned_installs (Some "1,000,000+") = Some (of_Z 1000000)
  /\ integer_value (of_Z 1000000) = Some 1000000
  /\ cleaned_installs (Some "0+") = Some (of_Z 0)
  /\ integer_value (of_Z 0) = Some 0
  /\ cleaned_installs (Some "Free") = None
  /\ cleaned_installs (Some "abc") = None
  /\ (forall x, cleaned_installs x = installs_outcome x)
  /\ (forall df,
        clean_stage clean_installs df =
        flat_map (fun r => match cleaned_installs (Installs r) with
                           | Some v => [mkCleaned r v]
                           | None => []
                           end) df)
  /\ (forall a c rv d,
        clean_stage clean_installs
          [mkRaw a c (Some "Free") rv d; mkRaw a c (Some "0+") rv d] =
        [mkCleaned (mkRaw a c (Some "0+") rv d) (of_Z 0)])
  /\ (forall df,
        geo_rows clean_installs df =
        restrict_to (top5 (top_categories (remove_unwanted (clean_stage clean_installs df))))
          (remove_unwanted (clean_stage clean_installs df)))
  /\ (forall td df,
        growth_rows td clean_installs df =
        with_dates td
          (keep_app_names (keep_wanted (enough_reviews (clean_stage clean_installs df))))).
Proof.
  split; [vm_compute; reflexivity|].
  split; [vm_compute; reflexivity|].
  split; [vm_compute; reflexivity|].
  split; [vm_compute; reflexivity|].
  split; [vm_compute; reflexivity|].
  split; [vm_compute; reflexivity|].
  split; [apply cleaned_installs_outcome|].
  split; [apply clean_stage_rowwise|].
  split; [intros; vm_compute; reflexivity|].
  split; reflexivity.
Qed.

(** C4.  The visibility gate depends on the hour alone and gives two
    separate answers: the map is shown exactly when the hour is in
    [18, 20), the chart exactly when it is in [18, 21).  At 19 both are
    shown, at 20 only the chart, at 21 and at 17 neither. *)
Theorem visibility_gate (now : datetime) :
  (show_map now = true <-> 18 <= hour now < 20)
  /\ (show_chart now = true <-> 18 <= hour now < 21)
  /\ show_map now = show_map (mkDatetime (hour now) 0 0)
  /\ show_chart now = show_chart (mkDatetime (hour now) 0 0)
  /\ (forall td db g df,
        map_shown (dashboard td db g now df) = show_map now
        /\ chart_shown (dashboard td db g now df) = show_chart now)
  /\ (forall m s,
        (show_map (mkDatetime 19 m s) = true /\ show_chart (mkDatetime 19 m s) = true)
        /\ (show_map (mkDatetime 20 m s) = false /\ show_chart (mkDatetime 20 m s) = true)
        /\ (show_map (mkDatetime 21 m s) = false /\ show_chart (mkDatetime 21 m s) = false)
        /\ (show_map (mkDatetime 17 m s) = false /\ show_chart (mkDatetime 17 m s) = false)).
Proof.
  unfold show_map, show_chart. simpl.
  repeat split; try reflexivity;
    try (rewrite andb_true_iff, Z.leb_le, Z.ltb_lt in *; lia);
    try (intros; rewrite andb_true_iff, Z.leb_le, Z.ltb_lt; lia).
Qed.

(** C9.  The branch of the cleaner that answers "free" is never taken:
    every text that reaches the cleaner holds a digit, and removing '+'
    and ',', stripping and lower-casing keep that digit.  The two
    pipelines give the same tables with the cleaner that lacks the
    branch. *)
Theorem free_branch_unreachable :
  (forall s, contains_digit s = true -> lower (strip (remove_plus_comma s)) <> "free")
  /\ (forall df rs, In rs (digits_only df) -> lower (strip (snd rs)) <> "free")
  /\ (forall df rs, In rs (digits_only df) ->
        clean_installs_no_free (snd rs) = clean_installs (snd rs))
  /\ (forall db g df,
        prepare_choropleth_data_with clean_installs_no_free db g df =
        prepare_choropleth_data db g df)
  /\ (forall td df,
        prepare_time_series_data_with td clean_installs_no_free df =
        prepare_time_series_data td df).
Proof.
  split; [|split; [|split; [|split]]].
  - intros s D. apply String.eqb_neq. now apply digit_not_free.
  - intros df rs Hin. destruct (digits_only_has_digit df rs Hin) as [s [_ [D [E _]]]].
    rewrite E. apply String.eqb_neq. now apply digit_not_free.
  - intros df rs Hin. destruct (digits_only_has_digit df rs Hin) as [s [_ [D [E _]]]].
    unfold clean_installs, clean_installs_no_free.
    now rewrite E, (digit_not_free s D).
  - intros db g df.
    unfold prepare_choropleth_data, prepare_choropleth_data_with, geo_rows.
    now rewrite clean_stage_no_free.
  - intros td df.
    unfold prepare_time_series_data, prepare_time_series_data_with, growth_rows.
    now rewrite clean_stage_no_free.
Qed.

Lemma free_branch_unreachable_witness :
  lower (strip (remove_plus_comma "10,000+")) <> "free".
Proof.
  apply (proj1 free_branch_unreachable "10,000+"). reflexivity.
Defined.

(** ** Orders on keys *)

Lemma string_compare_gt (a b : string) : String.compare a b = Gt -> String.compare b a = Lt.
Proof. intros H. rewrite String.compare_antisym, H. reflexivity. Qed.

Lemma string_compare_trans (a b c : string) :
  String.compare a b = Lt -> String.compare b c = Lt -> String.compare a c = Lt.
Proof.
  intros H1 H2.
  apply OrderedTypeEx.String_as_OT.cmp_lt.
  apply OrderedTypeEx.String_as_OT.cmp_lt in H1, H2.
  eapply OrderedTypeEx.String_as_OT.lt_trans; eassumption.
Qed.

Lemma string_compare_refl (a : string) : String.compare a a = Eq.
Proof. now apply OrderedTypeEx.String_as_OT.cmp_eq. Qed.

Lemma lex_lt (c1 c2 : comparison) : lex c1 c2 = Lt <-> c1 = Lt \/ (c1 = Eq /\ c2 = Lt).
Proof. destruct c1; simpl; intuition discriminate. Qed.

Lemma lex_gt (c1 c2 : comparison) : lex c1 c2 = Gt <-> c1 = Gt \/ (c1 = Eq /\ c2 = Gt).
Proof. destruct c1; simpl; intuition discriminate. Qed.

Lemma lex_eq (c1 c2 : comparison) : lex c1 c2 = Eq <-> c1 = Eq /\ c2 = Eq.
Proof. destruct c1; simpl; intuition discriminate. Qed.

Ltac ts_arith :=
  unfold ts_compare;
  repeat rewrite ?lex_lt, ?lex_gt, ?lex_eq, ?Z.compare_lt_iff, ?Z.compare_gt_iff,
    ?Z.compare_eq_iff in *;
  try lia.

Lemma ts_compare_eq (a b : Timestamp) : ts_compare a b = Eq -> a = b.
Proof.
  destruct a, b; simpl. ts_arith. simpl. intros [-> [-> [-> ->]]]. reflexivity.
Qed.

Lemma ts_compare_gt (a b : Timestamp) : ts_compare a b = Gt -> ts_compare b a = Lt.
Proof. destruct a, b; simpl. ts_arith. Qed.

Lemma ts_compare_trans (a b c : Timestamp) :
  ts_compare a b = Lt -> ts_compare b c = Lt -> ts_compare a c = Lt.
Proof. destruct a, b, c; simpl. ts_arith. Qed.

Lemma key_compare_eq (a b : Timestamp * string) : key_compare a b = Eq -> a = b.
Proof.
  destruct a as [ta sa], b as [tb sb]. unfold key_compare. simpl.
  rewrite lex_eq. intros [H1 H2].
  apply ts_compare_eq in H1. apply String.compare_eq_iff in H2. now subst.
Qed.

Lemma key_compare_gt (a b : Timestamp * string) :
  key_compare a b = Gt -> key_compare b a = Lt.
Proof.
  destruct a as [ta sa], b as [tb sb]. unfold key_compare. simpl.
  rewrite lex_gt, lex_lt. intros [H|[H1 H2]].
  - left. now apply ts_compare_gt.
  - right. apply ts_compare_eq in H1. subst. split.
    + destruct tb; simpl. ts_arith.
    + now apply string_compare_gt.
Qed.

Lemma key_compare_trans (a b c : Timestamp * string) :
  key_compare a b = Lt -> key_compare b c = Lt -> key_compare a c = Lt.
Proof.
  destruct a as [ta sa], b as [tb sb], c as [tc sc]. unfold key_compare. simpl.
  rewrite !lex_lt. intros [H1|[E1 L1]] [H2|[E2 L2]].
  - left. eapply ts_compare_trans; eassumption.
  - left. apply ts_compare_eq in E2. now subst.
  - left. apply ts_compare_eq in E1. now subst.
  - right. apply ts_compare_eq in E1, E2. subst. split.
    + destruct tc; simpl. ts_arith.
    + eapply string_compare_trans; eassumption.
Qed.

(** ** Grouped sums *)

Section GroupByFacts.
Context {K : Type}.
Variable cmp : K -> K -> comparison.
Hypothesis cmp_eq : forall a b, cmp a b = Eq -> a = b.
Hypothesis cmp_gt : forall a b, cmp a b = Gt -> cmp b a = Lt.
Hypothesis cmp_trans : forall a b c, cmp a b = Lt -> cmp b c = Lt -> cmp a c = Lt.

Lemma add_to_group_keys k v acc k' :
  In k' (map fst (add_to_group cmp k v acc)) <-> k' = k \/ In k' (map fst acc).
Proof.
  induction acc as [|[k0 s] rest IH]; simpl.
  - intuition.
  - destruct (cmp k k0) eqn:E; simpl.
    + apply cmp_eq in E. subst. intuition.
    + intuition.
    + rewrite IH. intuition.
Qed.

Lemma fold_add_keys rows acc k :
  In k (map fst (fold_left (fun a kv => add_to_group cmp (fst kv) (snd kv) a) rows acc))
  <-> In k (map fst rows) \/ In k (map fst acc).
Proof.
  revert acc. induction rows as [|[k0 v0] rows IH]; intros acc; simpl.
  - intuition.
  - rewrite IH, add_to_group_keys. intuition.
Qed.

Lemma groupby_sum_keys rows k :
  In k (map fst (groupby_sum cmp rows)) <-> In k (map fst rows).
Proof.
  unfold groupby_sum, group_states. rewrite map_map. simpl.
  change (map (fun x : K * (float * float) => fst x)) with (map (@fst K (float * float))).
  rewrite fold_add_keys. simpl. intuition.
Qed.

Lemma add_to_group_sorted k v acc :
  StronglySorted (fun a b => cmp a b = Lt) (map fst acc) ->
  StronglySorted (fun a b => cmp a b = Lt) (map fst (add_to_group cmp k v acc)).
Proof.
  induction acc as [|[k0 s] rest IH]; simpl; intros H.
  - constructor; constructor.
  - inversion H as [|? ? Hs Hf]; subst.
    destruct (cmp k k0) eqn:E; simpl.
    + assumption.
    + constructor; [assumption|]. constructor; [assumption|].
      rewrite Forall_forall in *. intros x Hx. eapply cmp_trans; eauto.
    + constructor; [auto|].
      rewrite Forall_forall in *. intros x Hx.
      apply add_to_group_keys in Hx. destruct Hx as [->|Hx]; auto.
Qed.

Lemma groupby_sum_sorted rows :
  StronglySorted (fun a b => cmp a b = Lt) (map fst (groupby_sum cmp rows)).
Proof.
  unfold groupby_sum, group_states. rewrite map_map. simpl.
  change (map (fun x : K * (float * float) => fst x)) with (map (@fst K (float * float))).
  assert (G : forall acc,
    StronglySorted (fun a b => cmp a b = Lt) (map fst acc) ->
    StronglySorted (fun a b => cmp a b = Lt)
      (map fst (fold_left (fun a kv => add_to_group cmp (fst kv) (snd kv) a) rows acc))).
  { induction rows as [|[k0 v0] rows IH]; intros acc Hacc; simpl; [assumption|].
    apply IH. now apply add_to_group_sorted. }
  apply G. constructor.
Qed.
End GroupByFacts.

(** ** The order on floats *)

Ltac float_cases x :=
  destruct x as [[]|[]| |[] ? ?]; simpl; try discriminate; try reflexivity.

Ltac compare_cases :=
  repeat match goal with
  | H : context [Z.compare ?a ?b] |- _ => destruct (Z.compare_spec a b); simpl in H
  | |- context [Z.compare ?a ?b] => destruct (Z.compare_spec a b); simpl
  | H : context [Pos.compare_cont Eq ?a ?b] |- _ =>
      change (Pos.compare_cont Eq a b) with (Pos.compare a b) in H;
      destruct (Pos.compare_spec a b); simpl in H
  | |- context [Pos.compare_cont Eq ?a ?b] =>
      change (Pos.compare_cont Eq a b) with (Pos.compare a b);
      destruct (Pos.compare_spec a b); simpl
  end;
  subst; try discriminate; try reflexivity; try lia.

Lemma fle_trans (x y z : float) : fle x y = true -> fle y z = true -> fle x z = true.
Proof.
  unfold fle, SFleb, SFcompare.
  float_cases x; float_cases y; float_cases z; intros H1 H2; compare_cases.
Qed.

Lemma flt_fle (x y : float) : flt x y = true -> fle x y = true.
Proof.
  unfold flt, fle, SFltb, SFleb. destruct (SFcompare x y) as [[]|]; easy.
Qed.

Lemma fle_total (x y : float) :
  is_nan x = false -> is_nan y = false -> flt x y = false -> fle y x = true.
Proof.
  unfold flt, fle, SFltb, SFleb, SFcompare.
  float_cases x; float_cases y; intros _ _ H; compare_cases.
Qed.

Lemma flt_not_fle (x y : float) : flt x y = true -> fle y x = false.
Proof.
  unfold flt, fle, SFltb, SFleb, SFcompare.
  float_cases x; float_cases y; intros H; compare_cases.
Qed.

Lemma flt_not_nan (x y : float) : flt x y = true -> is_nan x = false /\ is_nan y = false.
Proof.
  unfold flt, SFltb, SFcompare. destruct x, y; simpl; intros H; try discriminate; auto.
Qed.

(** ** Sorting in decreasing order *)

Section SortFacts.
Context {K : Type}.

Lemma insert_desc_perm (x : K * float) l : Permutation (insert_desc x l) (x :: l).
Proof.
  induction l as [|y r IH]; simpl; [reflexivity|].
  destruct (flt (snd x) (snd y)); [|reflexivity].
  rewrite IH. apply perm_swap.
Qed.

Lemma sort_values_desc_perm (s : list (K * float)) : Permutation (sort_values_desc s) s.
Proof.
  induction s as [|x s IH]; simpl; [reflexivity|].
  rewrite insert_desc_perm. now constructor.
Qed.

Lemma insert_desc_sorted (x : K * float) l :
  is_nan (snd x) = false ->
  Forall (fun y => is_nan (snd y) = false) l ->
  StronglySorted (fun a b => fle (snd b) (snd a) = true) l ->
  StronglySorted (fun a b => fle (snd b) (snd a) = true) (insert_desc x l).
Proof.
  intros Nx. induction l as [|y r IH]; simpl; intros Nl Hs.
  - constructor; constructor.
  - inversion Hs as [|? ? Hr Hy]; subst. inversion Nl as [|? ? Ny Nr]; subst.
    destruct (flt (snd x) (snd y)) eqn:E.
    + constructor; [auto|].
      rewrite Forall_forall in *. intros z Hz.
      apply (Permutation_in _ (insert_desc_perm x r)) in Hz.
      destruct Hz as [<-|Hz]; [now apply flt_fle | auto].
    + constructor; [assumption|].
      assert (Hyx : fle (snd y) (snd x) = true) by now apply fle_total.
      constructor; [assumption|].
      rewrite Forall_forall in *. intros z Hz. eapply fle_trans; eauto.
Qed.

Lemma sort_values_desc_sorted (s : list (K * float)) :
  Forall (fun y => is_nan (snd y) = false) s ->
  StronglySorted (fun a b => fle (snd b) (snd a) = true) (sort_values_desc s).
Proof.
  induction s as [|x s IH]; simpl; intros H; [constructor|].
  inversion H; subst. apply insert_desc_sorted; auto.
  rewrite Forall_forall in *. intros z Hz.
  apply (Permutation_in _ (sort_values_desc_perm s)) in Hz. auto.
Qed.
End SortFacts.

Lemma firstn_in {A : Type} (n : nat) (l : list A) (x : A) : In x (firstn n l) -> In x l.
Proof.
  revert l. induction n as [|n IH]; intros [|a l]; simpl; try tauto.
  intros [H|H]; auto.
Qed.

Lemma firstn_sorted {A : Type} (R : A -> A -> Prop) (n : nat) (l : list A) :
  StronglySorted R l -> StronglySorted R (firstn n l).
Proof.
  revert l. induction n as [|n IH]; intros [|a l] H; simpl; try constructor.
  - inversion H; subst. auto.
  - inversion H as [|? ? _ Hf]; subst.
    rewrite Forall_forall in *. intros x Hx. apply Hf. eapply firstn_in; eauto.
Qed.

Lemma firstn_nodup {A : Type} (n : nat) (l : list A) : NoDup l -> NoDup (firstn n l).
Proof.
  revert l. induction n as [|n IH]; intros [|a l] H; simpl; try constructor.
  - inversion H; subst. intros Hin. apply firstn_in in Hin. contradiction.
  - inversion H; subst. auto.
Qed.

Lemma sorted_nodup {A : Type} (R : A -> A -> Prop) (l : list A) :
  (forall a, ~ R a a) -> StronglySorted R l -> NoDup l.
Proof.
  intros Irr. induction l as [|a l IH]; intros H; constructor; inversion H; subst.
  - intros Hin. rewrite Forall_forall in *. apply (Irr a). auto.
  - auto.
Qed.

Lemma filter_keeps_distinct_keys {X Y : Type} (key : X -> Y) (keep : X -> bool)
  (xs : list X) (D : NoDup (map key xs)) : NoDup (map key (filter keep xs)).
Proof.
  induction xs as [|x xs IH]; simpl in *; [constructor|].
  apply NoDup_cons_iff in D. destruct D as [Hx D].
  destruct (keep x); simpl; [|now apply IH].
  apply NoDup_cons; [|now apply IH].
  intros Hin. apply Hx. apply in_map_iff in Hin. destruct Hin as [y [Ey Hy]].
  apply filter_In in Hy. apply in_map_iff. exists y. tauto.
Qed.

(** ** The Geo pipeline *)

Lemma top_categories_keys (df : list CleanedInstallRecord) (c : string) :
  In c (map fst (top_categories df)) <-> exists r, In r df /\ Category (raw r) = c.
Proof.
  unfold top_categories.
  rewrite (groupby_sum_keys String.compare String.compare_eq_iff).
  rewrite map_map. simpl. rewrite in_map_iff. firstorder.
Qed.

Lemma top_categories_nodup (df : list CleanedInstallRecord) :
  NoDup (map fst (top_categories df)).
Proof.
  apply (sorted_nodup (fun a b => String.compare a b = Lt)).
  - intros a H. rewrite string_compare_refl in H. discriminate H.
  - apply groupby_sum_sorted.
    + apply String.compare_eq_iff.
    + apply string_compare_gt.
    + apply string_compare_trans.
Qed.

Lemma top5_series_in (totals : list (string * float)) (kv : string * float) :
  In kv (top5_series totals) -> In kv totals /\ fgt (snd kv) (of_Z 1000000) = true.
Proof.
  unfold top5_series. intros H. apply firstn_in in H.
  apply (Permutation_in _ (sort_values_desc_perm _)) in H.
  apply filter_In in H. exact H.
Qed.

Lemma remove_unwanted_in (df : list CleanedInstallRecord) (r : CleanedInstallRecord) :
  In r (remove_unwanted df) ->
  In r df /\ startswith_any unwanted_prefixes (Category (raw r)) = false.
Proof.
  unfold remove_unwanted. rewrite filter_In. intros [H1 H2].
  split; [assumption|]. now apply negb_true_iff.
Qed.

Lemma geo_rows_in (df_apps : list RawRecord) (r : CleanedInstallRecord) :
  In r (geo_rows clean_installs df_apps) ->
  In r (remove_unwanted (clean_stage clean_installs df_apps))
  /\ In (Category (raw r))
        (top5 (top_categories (remove_unwanted (clean_stage clean_installs df_apps)))).
Proof.
  unfold geo_rows, restrict_to. rewrite filter_In. intros [H1 H2].
  split; [assumption|].
  unfold mem_string in H2. apply existsb_exists in H2. destruct H2 as [c [Hc E]].
  apply String.eqb_eq in E. now subst.
Qed.

Lemma resolve_dropna_in (db : list CountryEntry)
  (df : list (CleanedInstallRecord * string)) (r : GeoRecord) :
  In r (resolve_dropna db df) ->
  In (geo_row r, Country r) df /\ get_iso3 db (Country r) = Some (iso_alpha r).
Proof.
  unfold resolve_dropna. rewrite in_flat_map. intros [[c n] [Hin Hr]]. simpl in Hr.
  destruct (get_iso3 db n) as [code|] eqn:E; [|destruct Hr].
  destruct Hr as [<-|[]]. simpl. auto.
Qed.

Lemma choropleth_rows_in (db : list CountryEntry) (g : Rng) (df_apps : list RawRecord)
  (out : list GeoRecord) (r : GeoRecord) :
  prepare_choropleth_data db g df_apps = Some out -> In r out ->
  In (geo_row r) (geo_rows clean_installs df_apps).
Proof.
  unfold prepare_choropleth_data, prepare_choropleth_data_with.
  destruct (choices g (map name db) _) as [drawn|]; [|discriminate].
  intros [= <-] Hin. apply resolve_dropna_in in Hin. destruct Hin as [Hin _].
  now apply in_combine_l in Hin.
Qed.

Lemma startswith_any_first_char (ps : list string) (ch : ascii) (rest : string) :
  startswith_any ps (String ch rest) = false ->
  forall p, In p ps -> p <> String ch EmptyString.
Proof.
  unfold startswith_any. intros H p Hin ->.
  assert (T : existsb (fun p => startswith p (String ch rest)) ps = true).
  { apply existsb_exists. exists (String ch EmptyString). split; [assumption|].
    unfold startswith. simpl.
    destruct (ascii_dec ch ch); [now destruct rest|contradiction]. }
  rewrite T in H. discriminate H.
Qed.

Lemma top5_keys (totals : list (string * float)) (c : string) :
  In c (top5 totals) -> In c (map fst totals).
Proof.
  unfold top5. intros H. apply in_map_iff in H. destruct H as [kv [<- H]].
  apply top5_series_in in H. destruct H as [H _]. now apply in_map.
Qed.

(** C5.  The top-category set of the Geo pipeline has at most five
    members, all different; each member is a key of the category totals
    computed over the surviving records (so it is the category of a
    surviving record) and its total is greater than 1,000,000, never less
    or equal; the members are listed by decreasing total. *)
Theorem top_category_set (df_apps : list RawRecord) :
  let survivors := remove_unwanted (clean_stage clean_installs df_apps) in
  let totals := top_categories survivors in
  let members := top5_series totals in
  top5 totals = map fst members
  /\ (List.length (top5 totals) <= 5)%nat
  /\ NoDup (top5 totals)
  /\ Forall (fun kv => In kv totals
                       /\ fgt (snd kv) (of_Z 1000000) = true
                       /\ fle (snd kv) (of_Z 1000000) = false) members
  /\ StronglySorted (fun a b => fle (snd b) (snd a) = true) members
  /\ Forall (fun c => In c (map fst totals)
                      /\ exists r, In r survivors /\ Category (raw r) = c) (top5 totals)
  /\ geo_rows clean_installs df_apps = restrict_to (top5 totals) survivors.
Proof.
  intros survivors totals members.
  split; [reflexivity|].
  split.
  { unfold top5, top5_series. rewrite length_map. apply firstn_le_length. }
  split.
  { unfold top5, top5_series. rewrite <- firstn_map. apply firstn_nodup.
    eapply Permutation_NoDup.
    - apply Permutation_map. symmetry. apply sort_values_desc_perm.
    - apply filter_keeps_distinct_keys. apply top_categories_nodup. }
  split.
  { apply Forall_forall. intros kv H. apply top5_series_in in H. destruct H as [H1 H2].
    repeat split; try assumption. now apply flt_not_fle. }
  split.
  { unfold members, top5_series. apply firstn_sorted. apply sort_values_desc_sorted.
    apply Forall_forall. intros kv H. apply filter_In in H. destruct H as [_ H].
    now apply flt_not_nan in H. }
  split; [|reflexivity].
  apply Forall_forall. intros c H. apply top5_keys in H.
  split; [assumption|]. now apply top_categories_keys.
Qed.

(** C7.  No record in the output of the Geo pipeline has a category that
    begins with A, C, G or S: such records are removed before the
    category totals are computed, so no key of the totals and no member
    of the top-category set begins with one of these letters either. *)
Theorem geo_excludes_unwanted (db : list CountryEntry) (g : Rng)
  (df_apps : list RawRecord) (out : list GeoRecord) :
  prepare_choropleth_data db g df_apps = Some out ->
  let survivors := remove_unwanted (clean_stage clean_installs df_apps) in
  Forall (fun r : GeoRecord =>
            startswith_any ["A"; "C"; "G"; "S"] (Category (raw (geo_row r))) = false
            /\ forall ch rest, Category (raw (geo_row r)) = String ch rest ->
                 ch <> "A"%char /\ ch <> "C"%char /\ ch <> "G"%char /\ ch <> "S"%char) out
  /\ Forall (fun c => startswith_any ["A"; "C"; "G"; "S"] c = false)
       (map fst (top_categories survivors))
  /\ Forall (fun c => startswith_any ["A"; "C"; "G"; "S"] c = false)
       (top5 (top_categories survivors))
  /\ Forall (fun r : GeoRecord => In (geo_row r) survivors) out.
Proof.
  intros Hout survivors.
  assert (Keys : forall c, In c (map fst (top_categories survivors)) ->
                           startswith_any unwanted_prefixes c = false).
  { intros c Hc. apply top_categories_keys in Hc. destruct Hc as [r [Hr <-]].
    now apply remove_unwanted_in in Hr. }
  assert (Rows : forall r, In r out -> In (geo_row r) survivors).
  { intros r Hr. apply (choropleth_rows_in db g df_apps out r Hout) in Hr.
    now apply geo_rows_in in Hr. }
  split; [|split; [|split]].
  - apply Forall_forall. intros r Hr. apply Rows in Hr.
    apply remove_unwanted_in in Hr. destruct Hr as [_ Hr].
    split; [exact Hr|]. intros ch rest E. rewrite E in Hr.
    pose proof (startswith_any_first_char _ ch rest Hr) as P.
    repeat split; intros ->; eapply P; try reflexivity; simpl; auto.
  - apply Forall_forall. exact Keys.
  - apply Forall_forall. intros c Hc. apply Keys. now apply top5_keys.
  - apply Forall_forall. exact Rows.
Qed.

Lemma geo_excludes_unwanted_witness :
  exists out,
    prepare_choropleth_data example_db example_rng example_apps = Some out
    /\ Forall (fun c => startswith_any ["A"; "C"; "G"; "S"] c = false)
         (top5 (top_categories (remove_unwanted (clean_stage clean_installs example_apps)))).
Proof.
  eexists. split; [vm_compute; reflexivity|].
  eapply (geo_excludes_unwanted example_db example_rng example_apps).
  vm_compute. reflexivity.
Defined.

(** ** Country names and their codes *)

Lemma first_some_exists {A B : Type} (f : A -> option B) (l : list A) (a : A) (b : B) :
  In a l -> f a = Some b -> exists b', first_some f l = Some b'.
Proof.
  induction l as [|x l IH]; simpl; [tauto|].
  intros [->|Hin] E.
  - rewrite E. eauto.
  - destruct (f x); eauto.
Qed.

Lemma first_some_from {A B : Type} (f : A -> option B) (l : list A) (b : B) :
  first_some f l = Some b -> exists a, In a l /\ f a = Some b.
Proof.
  induction l as [|x l IH]; simpl; [discriminate|].
  destruct (f x) as [b'|] eqn:E.
  - intros [= <-]. eauto.
  - intros H. destruct (IH H) as [a [Ha Hf]]. eauto.
Qed.

Lemma lookup_in_db (db : list CountryEntry) (value : string) (c : CountryEntry) :
  lookup db value = Some c -> In c db.
Proof.
  unfold lookup. intros H. apply first_some_from in H. destruct H as [field [_ H]].
  unfold index_get in H. apply find_some in H. destruct H as [H _].
  now apply in_rev in H.
Qed.

(** Looking up the name of an entry of the table finds an entry. *)
Lemma lookup_name (db : list CountryEntry) (c : CountryEntry) :
  In c db -> exists c', lookup db (name c) = Some c'.
Proof.
  intros Hin. unfold lookup.
  destruct (index_get db (lower (name c)) (fun c => Some (name c))) as [c'|] eqn:E.
  - eapply first_some_exists; [|exact E]. unfold country_fields. simpl. auto.
  - exfalso. unfold index_get in E.
    apply in_rev in Hin. apply (find_none _ _ E c) in Hin.
    unfold field_is in Hin. rewrite String.eqb_refl in Hin. discriminate Hin.
Qed.

Lemma get_iso3_name (db : list CountryEntry) (n : string) :
  In n (map name db) ->
  exists c, In c db /\ lookup db n = Some c /\ get_iso3 db n = Some (alpha_3 c).
Proof.
  intros H. apply in_map_iff in H. destruct H as [c0 [<- H]].
  destruct (lookup_name db c0 H) as [c E].
  exists c. unfold get_iso3. rewrite E. split; [|auto].
  eapply lookup_in_db; eauto.
Qed.

Lemma choice_index_lt (u : Z) (n : nat) : (0 < n)%nat -> (choice_index u n < n)%nat.
Proof.
  intros Hn. unfold choice_index.
  assert (P : 0 < 2 ^ 53) by reflexivity.
  pose proof (Z.mod_pos_bound u (2 ^ 53) P) as B.
  assert (Q : 0 <= (u mod 2 ^ 53) * Z.of_nat n / 2 ^ 53 < Z.of_nat n).
  { split.
    - apply Z.div_pos; [nia|assumption].
    - apply Z.div_lt_upper_bound; [assumption|nia]. }
  lia.
Qed.

Lemma choices_spec (g : Rng) (population : list string) (k : nat) :
  population <> [] ->
  exists drawn, choices g population k = Some drawn
    /\ List.length drawn = k
    /\ forall n, In n drawn -> In n population.
Proof.
  intros Hne. unfold choices.
  destruct population as [|p0 pop]; [contradiction|].
  eexists. split; [destruct k; reflexivity|].
  split.
  - now rewrite length_map, length_seq.
  - intros n Hn. apply in_map_iff in Hn. destruct Hn as [i [<- _]].
    apply nth_In. apply choice_index_lt. simpl. lia.
Qed.

Lemma resolve_all (db : list CountryEntry) (df : list CleanedInstallRecord)
  (drawn : list string) :
  List.length drawn = List.length df ->
  (forall n, In n drawn -> In n (map name db)) ->
  map geo_row (resolve_dropna db (combine df drawn)) = df.
Proof.
  revert drawn. induction df as [|r df IH]; intros [|n drawn] L H; simpl in *;
    try discriminate; [reflexivity|].
  destruct (get_iso3_name db n (H n (or_introl eq_refl))) as [c [_ [_ E]]].
  rewrite E. simpl. f_equal. apply IH; [lia|]. auto.
Qed.

(** The rows of the Geo table do not depend on the random draws. *)
Lemma choropleth_projection (db : list CountryEntry) (g : Rng) (df_apps : list RawRecord) :
  option_map (map geo_row) (prepare_choropleth_data db g df_apps) =
  match db, geo_rows clean_installs df_apps with
  | [], _ :: _ => None
  | _, rows => Some rows
  end.
Proof.
  unfold prepare_choropleth_data, prepare_choropleth_data_with.
  destruct db as [|c0 db].
  - simpl. destruct (geo_rows clean_installs df_apps); reflexivity.
  - destruct (choices_spec g (map name (c0 :: db))
                (List.length (geo_rows clean_installs df_apps))) as [drawn [E [L H]]];
      [discriminate|].
    rewrite E. simpl option_map. f_equal. now apply resolve_all.
Qed.

(** C10.  With a reference table that is not empty and whose codes have
    three letters, the Geo pipeline returns a table; every country name
    in it is a name of the reference table, the lookup of that name
    succeeds and gives the code the record carries, a three-letter code;
    no row is lost in the step that drops unresolved codes: the output
    has exactly the rows restricted to the top categories. *)
Theorem country_codes_always_resolve (db : list CountryEntry) (g : Rng)
  (df_apps : list RawRecord) :
  db <> [] ->
  (forall c, In c db -> String.length (alpha_3 c) = 3%nat) ->
  (forall n, In n (map name db) -> exists code, get_iso3 db n = Some code)
  /\ exists out,
       prepare_choropleth_data db g df_apps = Some out
       /\ map geo_row out = geo_rows clean_installs df_apps
       /\ List.length out = List.length (geo_rows clean_installs df_apps)
       /\ Forall (fun r =>
                    In (Country r) (map name db)
                    /\ (exists c, In c db /\ lookup db (Country r) = Some c
                                  /\ iso_alpha r = alpha_3 c)
                    /\ String.length (iso_alpha r) = 3%nat) out.
Proof.
  intros Hne H3. split.
  { intros n Hn. destruct (get_iso3_name db n Hn) as [c [_ [_ E]]]. eauto. }
  pose proof (choropleth_projection db g df_apps) as P.
  destruct db as [|c0 db]; [contradiction|].
  destruct (prepare_choropleth_data (c0 :: db) g df_apps) as [out|] eqn:E;
    [|discriminate P].
  simpl in P. injection P as P.
  exists out. split; [reflexivity|]. split; [assumption|].
  split; [now rewrite <- P, length_map|].
  apply Forall_forall. intros r Hr.
  unfold prepare_choropleth_data, prepare_choropleth_data_with in E.
  destruct (choices_spec g (map name (c0 :: db))
              (List.length (geo_rows clean_installs df_apps))) as [drawn [Ec [L H]]];
    [discriminate|].
  rewrite Ec in E. injection E as E. subst out.
  apply resolve_dropna_in in Hr. destruct Hr as [Hin Hiso].
  apply in_combine_r in Hin.
  assert (Hname : In (Country r) (map name (c0 :: db))) by auto.
  destruct (get_iso3_name _ _ Hname) as [c [Hc [Hl Hg]]].
  rewrite Hg in Hiso. injection Hiso as Hiso.
  split; [assumption|]. split.
  - exists c. auto.
  - rewrite <- Hiso. auto.
Qed.

Lemma country_codes_always_resolve_witness :
  exists out,
    prepare_choropleth_data example_db example_rng example_apps = Some out
    /\ List.length out = List.length (geo_rows clean_installs example_apps)
    /\ Forall (fun r => String.length (iso_alpha r) = 3%nat) out.
Proof.
  destruct (country_codes_always_resolve example_db example_rng example_apps)
    as [_ [out [E [_ [L F]]]]].
  - discriminate.
  - intros c [<-|[<-|[]]]; reflexivity.
  - exists out. split; [exact E|]. split; [exact L|].
    eapply Forall_impl; [|exact F]. simpl. tauto.
Defined.


(** ** The Growth pipeline: which rows are summed *)

Lemma startswith_any_true_char (p1 p2 p3 : ascii) (s : string) :
  startswith_any [String p1 EmptyString; String p2 EmptyString; String p3 EmptyString] s = true ->
  exists ch rest, s = String ch rest /\ (ch = p1 \/ ch = p2 \/ ch = p3).
Proof.
  unfold startswith_any, startswith. intros H.
  apply existsb_exists in H. destruct H as [p [Hin Hp]].
  destruct s as [|ch rest]; [destruct Hin as [<-|[<-|[<-|[]]]]; discriminate Hp|].
  exists ch, rest. split; [reflexivity|].
  destruct Hin as [<-|[<-|[<-|[]]]]; simpl in Hp;
    match type of Hp with
    | context [ascii_dec ?a ?b] => destruct (ascii_dec a b); [auto|discriminate Hp]
    end.
Qed.

Lemma lower_char_X (ch : ascii) :
  lower_char ch <> "x"%char -> lower_char ch <> "y"%char -> lower_char ch <> "z"%char ->
  ~ In ch ["x"; "y"; "z"; "X"; "Y"; "Z"]%char.
Proof.
  intros Hx Hy Hz [<-|[<-|[<-|[<-|[<-|[<-|[]]]]]]];
    first [now apply Hx | now apply Hy | now apply Hz].
Qed.

Lemma no_xyz_start (a : string) :
  startswith_any ["x"; "y"; "z"] (lower a) = false ->
  forall ch rest, a = String ch rest -> ~ In ch ["x"; "y"; "z"; "X"; "Y"; "Z"]%char.
Proof.
  intros H ch rest ->.
  change (lower (String ch rest)) with (String (lower_char ch) (lower rest)) in H.
  pose proof (startswith_any_first_char _ _ _ H) as P.
  apply lower_char_X; intros E; rewrite E in P; eapply P; try reflexivity; simpl; auto.
Qed.

Lemma contains_char_false (x : ascii) (s : string) :
  contains (String x EmptyString) s = false ->
  forall ch, In ch (list_ascii_of_string s) -> ch <> x.
Proof.
  induction s as [|c r IH]; simpl; [tauto|].
  intros H ch [<-|Hin].
  - intros ->. destruct (ascii_dec x x); [|contradiction].
    destruct r; discriminate H.
  - apply orb_false_iff in H. destruct H as [_ H]. now apply IH.
Qed.

Lemma in_lower (ch : ascii) (s : string) :
  In ch (list_ascii_of_string s) -> In (lower_char ch) (list_ascii_of_string (lower s)).
Proof.
  induction s as [|c r IH]; simpl; [tauto|].
  intros [<-|H]; auto.
Qed.

Lemma no_letter_s (a : string) :
  contains_nocase "S" a = false ->
  forall ch, In ch (list_ascii_of_string a) -> ch <> "s"%char /\ ch <> "S"%char.
Proof.
  unfold contains_nocase. intros H ch Hin.
  apply in_lower in Hin.
  pose proof (contains_char_false _ _ H _ Hin) as P.
  split; intros ->; now apply P.
Qed.

Lemma with_dates_in (td : list (option string) -> list (option Timestamp))
  (df : list ReviewedRecord) (r : DatedRecord) :
  In r (with_dates td df) ->
  In (dated_row r) df
  /\ Translated_Category r = translate (category_of (dated_row r))
  /\ Month r = month_start (last_updated r).
Proof.
  unfold with_dates. rewrite in_flat_map. intros [[x [t|]] [Hin Hr]]; simpl in Hr; [|tauto].
  destruct Hr as [<-|[]]. simpl. apply in_combine_l in Hin. auto.
Qed.

Lemma enough_reviews_in (df : list CleanedInstallRecord) (r : ReviewedRecord) :
  In r (enough_reviews df) ->
  In (rev_row r) df
  /\ reviews r = to_numeric (Reviews (raw (rev_row r)))
  /\ is_nan (reviews r) = false
  /\ fgt (reviews r) (of_Z 500) = true.
Proof.
  unfold enough_reviews. rewrite !filter_In, in_map_iff.
  intros [[[x [<- Hx]] N] G]. simpl in *.
  repeat split; try assumption. now apply negb_true_iff.
Qed.

Lemma add_growth_in (grouped : list ((Timestamp * string) * float)) (b : GrowthBucket) :
  In b (add_growth grouped) ->
  In ((bucket_Month b, bucket_Category b), bucket_Installs b) grouped.
Proof.
  unfold add_growth. rewrite in_map_iff. intros [[[[m c] v] g] [<- Hin]]. simpl.
  now apply in_combine_l in Hin.
Qed.

(** C6.  Every record that is summed into the Growth table has a review
    count that [to_numeric] reads as a number greater than 500 (not
    missing, not less or equal), a category that begins with E, C or B,
    and an application name that neither begins with x, y or z nor holds
    the letter s, in either letter case.  Every bucket of the table is
    the month and label of at least one such record. *)
Theorem growth_rows_filtered
  (to_datetime : list (option string) -> list (option Timestamp))
  (df_apps : list RawRecord) :
  Forall (fun r : DatedRecord =>
            let record := raw (rev_row (dated_row r)) in
            let count := reviews (dated_row r) in
            In record df_apps
            /\ count = to_numeric (Reviews record)
            /\ is_nan count = false
            /\ fgt count (of_Z 500) = true
            /\ fle count (of_Z 500) = false
            /\ startswith_any ["E"; "C"; "B"] (Category record) = true
            /\ (exists ch rest, Category record = String ch rest
                  /\ (ch = "E" \/ ch = "C" \/ ch = "B")%char)
            /\ startswith_any ["x"; "y"; "z"] (lower (App record)) = false
            /\ (forall ch rest, App record = String ch rest ->
                  ~ In ch ["x"; "y"; "z"; "X"; "Y"; "Z"]%char)
            /\ contains_nocase "S" (App record) = false
            /\ (forall ch, In ch (list_ascii_of_string (App record)) ->
                  ch <> "s"%char /\ ch <> "S"%char))
         (growth_rows to_datetime clean_installs df_apps)
  /\ Forall (fun b : GrowthBucket =>
               exists r, In r (growth_rows to_datetime clean_installs df_apps)
                         /\ Month r = bucket_Month b
                         /\ Translated_Category r = bucket_Category b)
       (prepare_time_series_data to_datetime df_apps).
Proof.
  split.
  - apply Forall_forall. intros r Hr. unfold growth_rows in Hr.
    apply with_dates_in in Hr. destruct Hr as [Hr _].
    unfold keep_app_names in Hr. apply filter_In in Hr. destruct Hr as [Hr Happ].
    unfold keep_wanted in Hr. apply filter_In in Hr. destruct Hr as [Hr Hcat].
    apply enough_reviews_in in Hr. destruct Hr as [Hr [Hnum [Hnan Hgt]]].
    apply clean_stage_in in Hr. destruct Hr as [Hr _].
    apply andb_true_iff in Happ. destruct Happ as [Hxyz Hs].
    apply negb_true_iff in Hxyz, Hs.
    unfold category_of, app_of in *. simpl.
    repeat split; try assumption.
    + now apply flt_not_fle.
    + now apply startswith_any_true_char.
    + now apply no_xyz_start.
    + eapply no_letter_s; eauto.
    + eapply no_letter_s; eauto.
  - apply Forall_forall. intros b Hb.
    unfold prepare_time_series_data, prepare_time_series_data_with in Hb.
    apply add_growth_in in Hb. unfold group_months in Hb.
    apply (in_map fst) in Hb.
    apply (proj1 (groupby_sum_keys key_compare key_compare_eq _ _)) in Hb.
    rewrite map_map in Hb. apply in_map_iff in Hb. destruct Hb as [r [E Hr]].
    simpl in E.
    exists r. split; [assumption|]. split; congruence.
Qed.

(** ** The Growth pipeline: what a run depends on *)






(** ** The Growth pipeline: month-over-month change *)

Lemma find_all_false {A : Type} (p : A -> bool) (l : list A) :
  (forall x, In x l -> p x = false) -> find p l = None.
Proof.
  induction l as [|a l IH]; simpl; intros H; [reflexivity|].
  rewrite (H a (or_introl eq_refl)). apply IH. auto.
Qed.

Lemma find_app_skip {A : Type} (p : A -> bool) (l1 l2 : list A) :
  (forall x, In x l1 -> p x = false) -> find p (l1 ++ l2) = find p l2.
Proof.
  induction l1 as [|a l IH]; simpl; intros H; [reflexivity|].
  rewrite (H a (or_introl eq_refl)). apply IH. auto.
Qed.

Lemma sorted_split {A : Type} (R : A -> A -> Prop) (l1 l2 l3 : list A) (a b : A) :
  StronglySorted R (l1 ++ a :: l2 ++ b :: l3) -> R a b.
Proof.
  induction l1 as [|x l1 IH]; simpl; intros H; inversion H as [|? ? Hs Hf]; subst.
  - rewrite Forall_forall in Hf. apply Hf. apply in_elt.
  - auto.
Qed.

(** The bucket at a given place of the table: its change is taken
    against the latest earlier bucket of the same label. *)
Lemma growth_at (seen : list (string * float))
  (grouped : list ((Timestamp * string) * float))
  (o1 o2 : list GrowthBucket) (b : GrowthBucket) :
  map (fun rg : (Timestamp * string * float) * float =>
         let '((m, c, v), g) := rg in
         mkBucket m c v g (fgt g (of_decimal false 20 (-2))))
      (combine grouped
         (pct_change_from String.eqb seen (map (fun r => (snd (fst r), snd r)) grouped)))
  = o1 ++ b :: o2 ->
  MoM_Growth b =
    match last_of String.eqb (bucket_Category b)
            (rev (map (fun o => (bucket_Category o, bucket_Installs o)) o1) ++ seen) with
    | Some p => fsub (fdiv (bucket_Installs b) p) (of_Z 1)
    | None => nan
    end
  /\ Significant_Growth b = fgt (MoM_Growth b) (of_decimal false 20 (-2)).
Proof.
  revert seen grouped. induction o1 as [|a o1 IH]; intros seen grouped H.
  - destruct grouped as [|[[m c] v] rest]; [discriminate H|].
    simpl in H. injection H as H _. subst b. simpl. auto.
  - destruct grouped as [|[[m c] v] rest]; [discriminate H|].
    simpl in H. injection H as Ha H.
    apply IH in H. subst a. simpl. rewrite <- app_assoc. simpl. exact H.
Qed.

Lemma add_growth_keys (grouped : list ((Timestamp * string) * float)) :
  map (fun b => ((bucket_Month b, bucket_Category b), bucket_Installs b))
    (add_growth grouped) = grouped.
Proof.
  unfold add_growth, pct_change. generalize (@nil (string * float)) as seen.
  induction grouped as [|[[m c] v] rest IH]; intros seen; simpl; [reflexivity|].
  f_equal. apply IH.
Qed.

Lemma same_label_found (c : string) (v : float) (l0 lmid : list (string * float)) :
  (forall x, In x lmid -> fst x <> c) ->
  last_of String.eqb c (rev (l0 ++ (c, v) :: lmid) ++ []) = Some v.
Proof.
  intros H. unfold last_of. rewrite app_nil_r, rev_app_distr. simpl.
  rewrite <- app_assoc. rewrite find_app_skip.
  - simpl. now rewrite String.eqb_refl.
  - intros x Hx. apply in_rev in Hx. apply String.eqb_neq. now apply H.
Qed.

Lemma no_label_found (c : string) (l : list (string * float)) :
  (forall x, In x l -> fst x <> c) ->
  last_of String.eqb c (rev l ++ []) = None.
Proof.
  intros H. unfold last_of. rewrite app_nil_r, find_all_false; [reflexivity|].
  intros x Hx. apply in_rev in Hx. apply String.eqb_neq. now apply H.
Qed.

Lemma months_increase (to_datetime : list (option string) -> list (option Timestamp))
  (df_apps : list RawRecord) (o1 o2 o3 : list GrowthBucket) (a b : GrowthBucket) :
  prepare_time_series_data to_datetime df_apps = o1 ++ a :: o2 ++ b :: o3 ->
  key_compare (bucket_Month a, bucket_Category a) (bucket_Month b, bucket_Category b) = Lt.
Proof.
  intros H.
  pose proof (groupby_sum_sorted key_compare key_compare_eq key_compare_gt key_compare_trans
                (map (fun r => ((Month r, Translated_Category r),
                                installs (rev_row (dated_row r))))
                     (growth_rows to_datetime clean_installs df_apps))) as S.
  unfold prepare_time_series_data, prepare_time_series_data_with, group_months in H.
  rewrite <- (add_growth_keys (groupby_sum _ _)) in S.
  rewrite H in S. rewrite map_map in S. simpl in S.
  rewrite map_app in S. simpl in S. rewrite map_app in S. simpl in S.
  apply sorted_split in S. exact S.
Qed.

(** C2 (as amended).  In the Growth table the first bucket of every
    category has no month-over-month value (NaN) and is not flagged.
    A bucket that follows another bucket of its category, with no bucket
    of that category in between, is of a later month and its value is
    current / previous - 1, computed in binary64: 100 -> 150 gives 0.5
    exactly, 100 -> 110 gives 0.1000000000000000888..., six units in the
    last place above the float written 0.10.  A bucket is flagged exactly
    when its value is greater than 0.20: 0.5 is flagged, the value for
    100 -> 110, 0.10 and 0.20 itself are not. *)
Theorem mom_growth_rule
  (to_datetime : list (option string) -> list (option Timestamp))
  (df_apps : list RawRecord) :
  let out := prepare_time_series_data to_datetime df_apps in
  (forall o1 b o2,
      out = o1 ++ b :: o2 ->
      (forall a, In a o1 -> bucket_Category a <> bucket_Category b) ->
      MoM_Growth b = nan /\ Significant_Growth b = false)
  /\ (forall o1 a o2 b o3,
        out = o1 ++ a :: o2 ++ b :: o3 ->
        bucket_Category a = bucket_Category b ->
        (forall c, In c o2 -> bucket_Category c <> bucket_Category b) ->
        ts_compare (bucket_Month a) (bucket_Month b) = Lt
        /\ MoM_Growth b = fsub (fdiv (bucket_Installs b) (bucket_Installs a)) (of_Z 1))
  /\ Forall (fun b => Significant_Growth b = fgt (MoM_Growth b) (of_decimal false 20 (-2))) out
  /\ (fsub (fdiv (of_Z 150) (of_Z 100)) (of_Z 1) = of_decimal false 5 (-1)
      /\ fgt (of_decimal false 5 (-1)) (of_decimal false 20 (-2)) = true)
  /\ (fsub (fdiv (of_Z 110) (of_Z 100)) (of_Z 1) = S754_finite false 7205759403792800 (-56)
      /\ of_decimal false 10 (-2) = S754_finite false 7205759403792794 (-56)
      /\ fgt (S754_finite false 7205759403792800 (-56)) (of_decimal false 20 (-2)) = false
      /\ fgt (of_decimal false 10 (-2)) (of_decimal false 20 (-2)) = false)
  /\ fgt (of_decimal false 20 (-2)) (of_decimal false 20 (-2)) = false.
Proof.
  intros out.
  split; [|split; [|split; [|split; [|split]]]].
  - intros o1 b o2 H Hfirst.
    apply growth_at in H. destruct H as [Hg Hs].
    rewrite no_label_found in Hg.
    + rewrite Hs, Hg. split; reflexivity.
    + intros x Hx. apply in_map_iff in Hx. destruct Hx as [a [<- Ha]]. simpl. auto.
  - intros o1 a o2 b o3 H Hsame Hbetween. split.
    + pose proof (months_increase to_datetime df_apps o1 o2 o3 a b H) as L.
      unfold key_compare in L. simpl in L. rewrite Hsame, string_compare_refl in L.
      apply lex_lt in L. destruct L as [L|[_ L]]; [exact L|discriminate L].
    + change (o1 ++ a :: o2 ++ b :: o3) with (o1 ++ (a :: o2) ++ b :: o3) in H.
      rewrite app_assoc in H. apply growth_at in H. destruct H as [Hg _].
      rewrite map_app in Hg. simpl map in Hg. rewrite Hsame in Hg.
      rewrite same_label_found in Hg; [exact Hg|].
      intros x Hx. apply in_map_iff in Hx. destruct Hx as [c [<- Hc]]. simpl. auto.
  - apply Forall_forall. intros b Hb. apply in_split in Hb.
    destruct Hb as [o1 [o2 H]]. apply growth_at in H. tauto.
  - split; vm_compute; reflexivity.
  - repeat split; vm_compute; reflexivity.
  - vm_compute; reflexivity.
Qed.

Lemma mom_growth_rule_witness :
  exists o1 a o2 b o3,
    prepare_time_series_data to_datetime_iso example_apps = o1 ++ a :: o2 ++ b :: o3
    /\ bucket_Category a = "BUSINESS" /\ bucket_Category b = "BUSINESS"
    /\ ts_compare (bucket_Month a) (bucket_Month b) = Lt
    /\ MoM_Growth b = fsub (fdiv (bucket_Installs b) (bucket_Installs a)) (of_Z 1).
Proof.
  pose (out := prepare_time_series_data to_datetime_iso example_apps).
  pose (d := mkBucket (mkTimestamp 0 0 0 0) "" nan nan false).
  exists (firstn 1 out), (nth 1 out d), (firstn 2 (skipn 2 out)), (nth 4 out d), (skipn 5 out).
  assert (E : prepare_time_series_data to_datetime_iso example_apps =
              firstn 1 out ++ nth 1 out d :: firstn 2 (skipn 2 out) ++ nth 4 out d :: skipn 5 out)
    by (vm_compute; reflexivity).
  split; [exact E|]. split; [vm_compute; reflexivity|]. split; [vm_compute; reflexivity|].
  destruct (mom_growth_rule to_datetime_iso example_apps) as [_ [T _]].
  apply (T _ _ _ _ _ E).
  - vm_compute. reflexivity.
  - intros c Hc. vm_compute in Hc. destruct Hc as [<-|[<-|[]]]; vm_compute; discriminate.
Defined.

(** On 100 installs followed by 110 the value in the table is neither
    (110 - 100) / 100 nor the float written 0.10. *)
Lemma mom_growth_formula_counterexample :
  exists a b,
    prepare_time_series_data to_datetime_iso two_months = [a; b]
    /\ bucket_Category a = bucket_Category b
    /\ bucket_Installs a = of_Z 100
    /\ bucket_Installs b = of_Z 110
    /\ MoM_Growth b <> fdiv (fsub (bucket_Installs b) (bucket_Installs a)) (bucket_Installs a)
    /\ MoM_Growth b <> of_decimal false 10 (-2).
Proof.
  eexists _, _. split; [vm_compute; reflexivity|].
  repeat split; vm_compute; try reflexivity; discriminate.
Qed.

(** C3.  The single row Foo / BUSINESS / "10,000+" / "600" /
    "2018-03-05" passes the review, category and name filters and makes
    one bucket, of month 2018-03-01, with 10000 installs.  Its label is
    the code BUSINESS itself: the table of translations has the key
    Business, which BUSINESS does not match, so the Tamil label kept
    under Business is not used.  A code that is not a key of the table
    keeps its code as label. *)
Theorem business_row_bucket
  (to_datetime : list (option string) -> list (option Timestamp)) :
  to_datetime [Some "2018-03-05"] = [Some (mkTimestamp 2018 3 5 0)] ->
  growth_rows to_datetime clean_installs [business_row] =
    [mkDated (mkReviewed (mkCleaned business_row (of_Z 10000)) (of_Z 600))
       "BUSINESS" (mkTimestamp 2018 3 5 0) (mkTimestamp 2018 3 1 0)]
  /\ prepare_time_series_data to_datetime [business_row] =
       [mkBucket (mkTimestamp 2018 3 1 0) "BUSINESS" (of_Z 10000) nan false]
  /\ integer_value (of_Z 10000) = Some 10000
  /\ dict_get translations "BUSINESS" = None
  /\ dict_get translations "Business" = Some "வர்த்தகம்"
  /\ translate "BUSINESS" <> "வர்த்தகம்"
  /\ (forall c, dict_get translations c = None -> translate c = c).
Proof.
  intros H.
  assert (E : keep_app_names (keep_wanted (enough_reviews
                (clean_stage clean_installs [business_row]))) =
              [mkReviewed (mkCleaned business_row (of_Z 10000)) (of_Z 600)])
    by (vm_compute; reflexivity).
  assert (R : growth_rows to_datetime clean_installs [business_row] =
              [mkDated (mkReviewed (mkCleaned business_row (of_Z 10000)) (of_Z 600))
                 "BUSINESS" (mkTimestamp 2018 3 5 0) (mkTimestamp 2018 3 1 0)]).
  { unfold growth_rows. rewrite E. unfold with_dates.
    change (map (fun r => Last_Updated (raw (rev_row r)))
              [mkReviewed (mkCleaned business_row (of_Z 10000)) (of_Z 600)])
      with [Some "2018-03-05"].
    rewrite H. vm_compute. reflexivity. }
  split; [exact R|]. split.
  { unfold prepare_time_series_data, prepare_time_series_data_with. rewrite R.
    vm_compute. reflexivity. }
  split; [vm_compute; reflexivity|].
  split; [vm_compute; reflexivity|].
  split; [vm_compute; reflexivity|].
  split; [vm_compute; discriminate|].
  intros c Hc. unfold translate. now rewrite Hc.
Qed.

Lemma business_row_bucket_witness :
  prepare_time_series_data to_datetime_iso [business_row] =
    [mkBucket (mkTimestamp 2018 3 1 0) "BUSINESS" (of_Z 10000) nan false].
Proof.
  apply (business_row_bucket to_datetime_iso). vm_compute. reflexivity.
Defined.

(** * Further properties *)

(** ** The cleaner on arbitrary text *)

Lemma cspace_is_space (c : ascii) : is_cspace c = true -> is_space c = true.
Proof. each_char c; intros H; discriminate H. Qed.

(** A text whose first character, if it has one, is a blank or one of the
    letters f, F: [float] does not read it. *)
Lemma float_rejects_head (c : ascii) (r : string) :
  is_space c = true \/ lower_char c = "f"%char ->
  match drop_underscores None (String c r) with
  | Some s' => parse_signed s'
  | None => None
  end = None.
Proof.
  destruct c as [[] [] [] [] [] [] [] []];
    intros [H|H]; try discriminate H;
    cbn [drop_underscores Ascii.eqb Bool.eqb andb];
    destruct (drop_underscores _ r); reflexivity.
Qed.

Lemma rstrip_head (c : ascii) (r : string) :
  rstrip (String c r) = EmptyString \/ exists r', rstrip (String c r) = String c r'.
Proof.
  simpl. destruct (rstrip r); [destruct (is_space c)|]; eauto.
Qed.

Lemma rstrip_c_head (c : ascii) (r : string) :
  rstrip_c (String c r) = EmptyString \/ exists r', rstrip_c (String c r) = String c r'.
Proof.
  simpl. destruct (rstrip_c r); [destruct (is_cspace c)|]; eauto.
Qed.

Lemma lstrip_c_head (x : string) (c : ascii) (r : string) :
  lstrip x = String c r ->
  lstrip_c x = EmptyString
  \/ exists c' r', lstrip_c x = String c' r' /\ (is_space c' = true \/ c' = c).
Proof.
  induction x as [|a x IH]; simpl; [discriminate|].
  destruct (is_cspace a) eqn:C.
  - rewrite (cspace_is_space a C). exact IH.
  - intros H. right. exists a, x. split; [reflexivity|].
    destruct (is_space a); [now left|]. injection H as -> _. now right.
Qed.

Lemma free_is_not_a_float (x : string) :
  lower (strip x) = "free" -> py_float x = None.
Proof.
  unfold strip, py_float. intros H.
  destruct (lstrip x) as [|c r] eqn:L; [discriminate H|].
  assert (F : lower_char c = "f"%char).
  { destruct (rstrip_head c r) as [E|[r' E]]; rewrite E in H; [discriminate H|].
    simpl in H. now injection H as -> _. }
  destruct (lstrip_c_head x c r L) as [E|[c' [r' [E Hc]]]].
  - rewrite E. reflexivity.
  - rewrite E. destruct (rstrip_c_head c' r') as [E2|[r2 E2]]; rewrite E2.
    + reflexivity.
    + apply float_rejects_head. destruct Hc as [Hc | ->]; auto.
Qed.

(** X1.  On every text the cleaner returns what [float] returns, with
    [None] where [float] raises: a text that is "free" once stripped and
    lower-cased is not a number, so the first branch of the cleaner
    never changes the result, before or after the digit filter. *)
Theorem clean_installs_is_float (x : string) :
  clean_installs x = py_float x
  /\ clean_installs x = clean_installs_no_free x.
Proof.
  assert (E : clean_installs x = py_float x).
  { unfold clean_installs.
    destruct (String.eqb (lower (strip x)) "free") eqn:T; [|reflexivity].
    apply String.eqb_eq in T. symmetry. now apply free_is_not_a_float. }
  split; exact E.
Qed.

(** ** The Geo pipeline: which categories and rows are chosen *)

Lemma sorted_across {A : Type} (R : A -> A -> Prop) (l1 l2 : list A) :
  StronglySorted R (l1 ++ l2) -> forall a b, In a l1 -> In b l2 -> R a b.
Proof.
  induction l1 as [|x l1 IH]; simpl; intros H a b Ha Hb; [destruct Ha|].
  inversion H as [|? ? Hs Hf]; subst. destruct Ha as [<-|Ha].
  - rewrite Forall_forall in Hf. apply Hf. apply in_or_app. now right.
  - eapply IH; eauto.
Qed.

Lemma above_threshold_sorted (totals : list (string * float)) :
  StronglySorted (fun a b => fle (snd b) (snd a) = true)
    (sort_values_desc (filter (fun kv => fgt (snd kv) (of_Z 1000000)) totals)).
Proof.
  apply sort_values_desc_sorted. apply Forall_forall. intros kv H.
  apply filter_In in H. destruct H as [_ H]. now apply flt_not_nan in H.
Qed.

(** X2.  The top-category selection takes the largest totals: a category
    whose total is above 1,000,000 is either selected, or five
    categories are selected and each of them has a total at least as
    large. *)
Theorem top5_takes_the_largest (totals : list (string * float)) (c : string) (v : float) :
  In (c, v) totals ->
  fgt v (of_Z 1000000) = true ->
  In (c, v) (top5_series totals)
  \/ (List.length (top5 totals) = 5%nat
      /\ Forall (fun kv => fle v (snd kv) = true) (top5_series totals)).
Proof.
  intros Hin Hgt. unfold top5, top5_series.
  set (l := sort_values_desc (filter (fun kv => fgt (snd kv) (of_Z 1000000)) totals)).
  assert (Hl : In (c, v) l).
  { apply (Permutation_in _ (Permutation_sym (sort_values_desc_perm _))).
    apply filter_In. auto. }
  rewrite <- (firstn_skipn 5 l) in Hl. apply in_app_or in Hl.
  destruct Hl as [Hl|Hl]; [now left|right].
  split.
  - rewrite length_map, length_firstn.
    assert (0 < List.length (skipn 5 l))%nat by (destruct (skipn 5 l); [destruct Hl|simpl; lia]).
    rewrite length_skipn in H. lia.
  - apply Forall_forall. intros kv Hkv.
    pose proof (above_threshold_sorted totals) as S. fold l in S.
    rewrite <- (firstn_skipn 5 l) in S.
    apply (sorted_across _ _ _ S kv (c, v) Hkv Hl).
Qed.

Lemma top5_takes_the_largest_witness :
  In ("BUSINESS", of_Z 11010000)
     (top5_series (top_categories (remove_unwanted (clean_stage clean_installs example_apps))))
  \/ (List.length
        (top5 (top_categories (remove_unwanted (clean_stage clean_installs example_apps))))
      = 5%nat
      /\ Forall (fun kv => fle (of_Z 11010000) (snd kv) = true)
           (top5_series (top_categories (remove_unwanted (clean_stage clean_installs example_apps))))).
Proof.
  apply top5_takes_the_largest.
  - vm_compute. left. reflexivity.
  - vm_compute. reflexivity.
Defined.

Lemma top5_empty (totals : list (string * float)) :
  top5 totals = [] <-> Forall (fun kv => fgt (snd kv) (of_Z 1000000) = false) totals.
Proof.
  unfold top5, top5_series.
  set (f := filter (fun kv => fgt (snd kv) (of_Z 1000000)) totals).
  assert (E : f = [] <-> Forall (fun kv => fgt (snd kv) (of_Z 1000000) = false) totals).
  { unfold f. clear f. induction totals as [|kv t IH]; cbn [filter].
    - split; [constructor|reflexivity].
    - destruct (fgt (snd kv) (of_Z 1000000)) eqn:G.
      + split; [intros H; discriminate H|]. intros H. inversion H; subst. congruence.
      + rewrite IH. split; [now constructor|]. intros H. now inversion H. }
  rewrite <- E. split.
  - intros H. destruct (sort_values_desc f) as [|x s] eqn:S; [|discriminate H].
    pose proof (sort_values_desc_perm f) as P. rewrite S in P.
    now apply Permutation_nil.
  - intros ->. reflexivity.
Qed.

Lemma geo_rows_empty (df_apps : list RawRecord) :
  geo_rows clean_installs df_apps = [] <->
  top5 (top_categories (remove_unwanted (clean_stage clean_installs df_apps))) = [].
Proof.
  unfold geo_rows, restrict_to.
  set (s := remove_unwanted (clean_stage clean_installs df_apps)).
  split.
  - intros H. destruct (top5 (top_categories s)) as [|c cs] eqn:T; [reflexivity|exfalso].
    assert (Hc : In c (top5 (top_categories s))) by (rewrite T; now left).
    pose proof Hc as Hk. apply top5_keys in Hk. apply top_categories_keys in Hk.
    destruct Hk as [r [Hr E]].
    assert (Hin : In r (filter (fun r => mem_string (Category (raw r)) (c :: cs)) s)).
    { apply filter_In. split; [assumption|]. rewrite <- T.
      unfold mem_string. apply existsb_exists. exists c. split; [assumption|].
      apply String.eqb_eq. assumption. }
    rewrite H in Hin. destruct Hin.
  - intros ->. induction s as [|r s IH]; simpl; auto.
Qed.

Lemma choropleth_rows (db : list CountryEntry) (g : Rng) (df_apps : list RawRecord)
  (out : list GeoRecord) :
  prepare_choropleth_data db g df_apps = Some out ->
  map geo_row out = geo_rows clean_installs df_apps.
Proof.
  intros H. pose proof (choropleth_projection db g df_apps) as P.
  rewrite H in P. simpl in P.
  destruct db; destruct (geo_rows clean_installs df_apps);
    try discriminate P; now injection P.
Qed.

(** X3.  When the Geo pipeline returns a table, the table is empty
    exactly when no category total of the surviving records is above
    1,000,000. *)
Theorem geo_table_empty_iff (db : list CountryEntry) (g : Rng)
  (df_apps : list RawRecord) (out : list GeoRecord) :
  prepare_choropleth_data db g df_apps = Some out ->
  (out = [] <->
   Forall (fun kv => fgt (snd kv) (of_Z 1000000) = false)
     (top_categories (remove_unwanted (clean_stage clean_installs df_apps)))).
Proof.
  intros H. rewrite <- top5_empty, <- geo_rows_empty.
  rewrite <- (choropleth_rows db g df_apps out H).
  split; [intros ->; reflexivity|]. intros E. now destruct out.
Qed.

Lemma geo_table_empty_iff_witness :
  exists out,
    prepare_choropleth_data example_db example_rng example_apps = Some out
    /\ (out = [] <->
        Forall (fun kv => fgt (snd kv) (of_Z 1000000) = false)
          (top_categories (remove_unwanted (clean_stage clean_installs example_apps)))).
Proof.
  eexists. split; [vm_compute; reflexivity|].
  apply (geo_table_empty_iff example_db example_rng example_apps).
  vm_compute. reflexivity.
Defined.

Lemma raw_of_kept (f : RawRecord -> option float) (df : list RawRecord) :
  map raw (flat_map (fun r => match f r with
                              | Some v => [mkCleaned r v]
                              | None => []
                              end) df)
  = filter (fun r => match f r with Some _ => true | None => false end) df.
Proof.
  induction df as [|r df IH]; simpl; [reflexivity|].
  rewrite map_app, IH. now destruct (f r).
Qed.

Lemma raw_of_filter (p : RawRecord -> bool) (l : list CleanedInstallRecord) :
  map raw (filter (fun r => p (raw r)) l) = filter p (map raw l).
Proof.
  induction l as [|r l IH]; simpl; [reflexivity|].
  destruct (p (raw r)); simpl; now rewrite IH.
Qed.

Lemma filter_twice {A : Type} (p q : A -> bool) (l : list A) :
  filter p (filter q l) = filter (fun x => q x && p x) l.
Proof.
  induction l as [|a l IH]; simpl; [reflexivity|].
  destruct (q a); simpl; [destruct (p a)|]; now rewrite IH.
Qed.


(** X4.  The Geo table is a selection of the loaded rows: its records
    are rows of the input, kept in input order and decided row by row
    from their content, none made up or repeated; the number each record
    carries is the one the cleaner reads from the record's own
    [Installs] text, and it is not NaN. *)
Theorem geo_table_is_a_selection (db : list CountryEntry) (g : Rng)
  (df_apps : list RawRecord) (out : list GeoRecord) :
  prepare_choropleth_data db g df_apps = Some out ->
  (exists keep : RawRecord -> bool,
      map (fun r => raw (geo_row r)) out = filter keep df_apps)
  /\ Forall (fun r =>
               cleaned_installs (Installs (raw (geo_row r))) = Some (installs (geo_row r))
               /\ is_nan (installs (geo_row r)) = false) out.
Proof.
  intros H. pose proof (choropleth_rows db g df_apps out H) as R. split.
  - exists (fun r =>
              match cleaned_installs (Installs r) with Some _ => true | None => false end
              && (negb (startswith_any unwanted_prefixes (Category r))
                  && mem_string (Category r)
                       (top5 (top_categories
                                (remove_unwanted (clean_stage clean_installs df_apps)))))).
    rewrite <- (map_map geo_row raw), R.
    unfold geo_rows, restrict_to.
    pose proof (raw_of_filter
                  (fun r => mem_string (Category r)
                     (top5 (top_categories (remove_unwanted (clean_stage clean_installs df_apps)))))
                  (remove_unwanted (clean_stage clean_installs df_apps))) as E1.
    cbv beta in E1. rewrite E1. clear E1.
    unfold remove_unwanted at 2.
    pose proof (raw_of_filter
                  (fun r => negb (startswith_any unwanted_prefixes (Category r)))
                  (clean_stage clean_installs df_apps)) as E2.
    cbv beta in E2. rewrite E2. clear E2.
    rewrite clean_stage_rowwise.
    rewrite (raw_of_kept (fun r => cleaned_installs (Installs r))).
    now rewrite !filter_twice.
  - apply Forall_forall. intros r Hr.
    apply (in_map geo_row) in Hr. rewrite R in Hr.
    apply geo_rows_in in Hr. destruct Hr as [Hr _].
    apply remove_unwanted_in in Hr. destruct Hr as [Hr _].
    split; [|now apply clean_stage_in in Hr].
    rewrite clean_stage_rowwise in Hr. apply in_flat_map in Hr.
    destruct Hr as [x [_ Hx]].
    destruct (cleaned_installs (Installs x)) as [v|] eqn:E; [|destruct Hx].
    destruct Hx as [<-|[]]. simpl. exact E.
Qed.

Lemma geo_table_is_a_selection_witness :
  exists out,
    prepare_choropleth_data example_db example_rng example_apps = Some out
    /\ exists keep : RawRecord -> bool,
         map (fun r => raw (geo_row r)) out = filter keep example_apps.
Proof.
  eexists. split; [vm_compute; reflexivity|].
  eapply (geo_table_is_a_selection example_db example_rng example_apps).
  vm_compute. reflexivity.
Defined.


(** ** The Growth table: keys and labels *)

Lemma bucket_from_row (to_datetime : list (option string) -> list (option Timestamp))
  (df_apps : list RawRecord) (b : GrowthBucket) :
  In b (prepare_time_series_data to_datetime df_apps) ->
  exists r, In r (growth_rows to_datetime clean_installs df_apps)
            /\ Month r = bucket_Month b
            /\ Translated_Category r = bucket_Category b.
Proof.
  intros Hb. unfold prepare_time_series_data, prepare_time_series_data_with in Hb.
  apply add_growth_in in Hb. unfold group_months in Hb.
  apply (in_map fst) in Hb.
  apply (proj1 (groupby_sum_keys key_compare key_compare_eq _ _)) in Hb.
  rewrite map_map in Hb. apply in_map_iff in Hb. destruct Hb as [r [E Hr]].
  simpl in E. exists r. split; [assumption|]. split; congruence.
Qed.

Lemma sorted_map {A B : Type} (R : B -> B -> Prop) (f : A -> B) (l : list A) :
  StronglySorted R (map f l) -> StronglySorted (fun a b => R (f a) (f b)) l.
Proof.
  induction l as [|a l IH]; simpl; intros H; [constructor|].
  inversion H as [|? ? Hs Hf]; subst. constructor; [auto|].
  rewrite Forall_forall in *. intros x Hx. apply Hf. now apply in_map.
Qed.

Lemma bucket_keys_sorted (to_datetime : list (option string) -> list (option Timestamp))
  (df_apps : list RawRecord) :
  StronglySorted (fun a b => key_compare a b = Lt)
    (map (fun b => (bucket_Month b, bucket_Category b))
         (prepare_time_series_data to_datetime df_apps)).
Proof.
  pose proof (groupby_sum_sorted key_compare key_compare_eq key_compare_gt key_compare_trans
                (map (fun r => ((Month r, Translated_Category r),
                                installs (rev_row (dated_row r))))
                     (growth_rows to_datetime clean_installs df_apps))) as S.
  rewrite <- (add_growth_keys (groupby_sum _ _)) in S.
  rewrite map_map in S. exact S.
Qed.

Lemma row_has_bucket (to_datetime : list (option string) -> list (option Timestamp))
  (df_apps : list RawRecord) (r : DatedRecord) :
  In r (growth_rows to_datetime clean_installs df_apps) ->
  exists b, In b (prepare_time_series_data to_datetime df_apps)
            /\ bucket_Month b = Month r
            /\ bucket_Category b = Translated_Category r.
Proof.
  intros Hr.
  assert (K : In (Month r, Translated_Category r)
                (map fst (group_months (growth_rows to_datetime clean_installs df_apps)))).
  { unfold group_months.
    apply (proj2 (groupby_sum_keys key_compare key_compare_eq _ _)).
    rewrite map_map. apply in_map_iff. exists r. auto. }
  unfold prepare_time_series_data, prepare_time_series_data_with.
  rewrite <- (add_growth_keys (group_months _)) in K.
  rewrite map_map in K. apply in_map_iff in K. destruct K as [b [E Hb]].
  simpl in E. exists b. split; [exact Hb|]. split; congruence.
Qed.

(** X6.  The Growth table has exactly one bucket per (month, label)
    pair of the summed records: every summed record has the bucket of
    its month and label, every bucket is the month and label of a summed
    record, and no two buckets have the same pair.  The buckets are
    listed by increasing month and, within a month, by increasing label;
    the month of a bucket is the first instant of the month in which
    the records summed in it were last updated. *)
Theorem growth_buckets_keyed
  (to_datetime : list (option string) -> list (option Timestamp))
  (df_apps : list RawRecord) :
  let out := prepare_time_series_data to_datetime df_apps in
  Forall (fun r =>
            exists b, In b out
                      /\ bucket_Month b = month_start (last_updated r)
                      /\ bucket_Category b = Translated_Category r)
         (growth_rows to_datetime clean_installs df_apps)
  /\ Forall (fun b =>
               ts_day (bucket_Month b) = 1 /\ ts_time (bucket_Month b) = 0
               /\ exists r, In r (growth_rows to_datetime clean_installs df_apps)
                            /\ ts_year (last_updated r) = ts_year (bucket_Month b)
                            /\ ts_month (last_updated r) = ts_month (bucket_Month b)
                            /\ Translated_Category r = bucket_Category b) out
  /\ NoDup (map (fun b => (bucket_Month b, bucket_Category b)) out)
  /\ StronglySorted
       (fun a b => key_compare (bucket_Month a, bucket_Category a)
                               (bucket_Month b, bucket_Category b) = Lt) out.
Proof.
  intros out. pose proof (bucket_keys_sorted to_datetime df_apps) as S.
  split; [|split; [|split]].
  - apply Forall_forall. intros r Hr.
    destruct (row_has_bucket to_datetime df_apps r Hr) as [b [Hb [Em Ec]]].
    exists b. split; [exact Hb|]. split; [|exact Ec].
    unfold growth_rows in Hr. apply with_dates_in in Hr.
    destruct Hr as [_ [_ Hm]]. congruence.
  - apply Forall_forall. intros b Hb.
    apply bucket_from_row in Hb. destruct Hb as [r [Hr [Em Ec]]].
    pose proof Hr as Hd. unfold growth_rows in Hd. apply with_dates_in in Hd.
    destruct Hd as [_ [_ Hm]]. rewrite Hm in Em.
    rewrite <- Em. simpl. repeat split. exists r. auto.
  - apply (sorted_nodup (fun a b => key_compare a b = Lt)); [|exact S].
    intros [t c] H. unfold key_compare in H. simpl in H.
    rewrite string_compare_refl in H. apply lex_lt in H.
    destruct H as [H|[_ H]]; [|discriminate H].
    destruct t; simpl in H. revert H. ts_arith.
  - apply (sorted_map (fun a b => key_compare a b = Lt)
             (fun b => (bucket_Month b, bucket_Category b))). exact S.
Qed.

Lemma translate_cases (code : string) :
  (code = "Beauty" /\ translate code = "सुंदरता")
  \/ (code = "Business" /\ translate code = "வர்த்தகம்")
  \/ (code = "Dating" /\ translate code = "Dating")
  \/ (code <> "Beauty" /\ code <> "Business" /\ code <> "Dating" /\ translate code = code).
Proof.
  unfold translate, dict_get, translations. cbn [find fst snd option_map].
  destruct (String.eqb_spec "Beauty" code) as [<-|N1]; [left; auto|].
  destruct (String.eqb_spec "Business" code) as [<-|N2]; [right; left; auto|].
  destruct (String.eqb_spec "Dating" code) as [<-|N3]; [right; right; left; auto|].
  right; right; right. cbn [option_map]. repeat split; congruence.
Qed.

(** X7.  The label of a bucket is the translation of a category code
    that begins with E, C or B: the code itself unless the code is
    Beauty or Business.  No code that reaches the table of translations
    is Dating, so its third entry is never used, and no bucket is
    labelled Dating. *)
Theorem growth_labels
  (to_datetime : list (option string) -> list (option Timestamp))
  (df_apps : list RawRecord) :
  Forall (fun b =>
            exists code,
              In code (map Category df_apps)
              /\ startswith_any ["E"; "C"; "B"] code = true
              /\ bucket_Category b = translate code
              /\ code <> "Dating"
              /\ bucket_Category b <> "Dating"
              /\ (code <> "Beauty" -> code <> "Business" -> bucket_Category b = code))
    (prepare_time_series_data to_datetime df_apps).
Proof.
  apply Forall_forall. intros b Hb.
  apply bucket_from_row in Hb. destruct Hb as [r [Hr [_ Ec]]].
  unfold growth_rows in Hr. apply with_dates_in in Hr. destruct Hr as [Hr [Et _]].
  unfold keep_app_names in Hr. apply filter_In in Hr. destruct Hr as [Hr _].
  unfold keep_wanted in Hr. apply filter_In in Hr. destruct Hr as [Hr Hcat].
  apply enough_reviews_in in Hr. destruct Hr as [Hr _].
  apply clean_stage_in in Hr. destruct Hr as [Hr _].
  exists (category_of (dated_row r)). unfold category_of in *.
  set (code := Category (raw (rev_row (dated_row r)))) in *.
  assert (ND : code <> "Dating").
  { intros E. rewrite E in Hcat. vm_compute in Hcat. discriminate Hcat. }
  split; [now apply in_map|]. split; [exact Hcat|].
  split; [congruence|]. split; [exact ND|].
  rewrite <- Ec, Et.
  destruct (translate_cases code) as [[E T]|[[E T]|[[E T]|[N1 [N2 [N3 T]]]]]]; rewrite T.
  - split; [discriminate|]. intros N. contradiction.
  - split; [discriminate|]. intros _ N. contradiction.
  - contradiction.
  - split; [exact ND|]. reflexivity.
Qed.

(** ** The shaded traces of the time-series figure *)

Lemma mem_string_in (x : string) (l : list string) : mem_string x l = true <-> In x l.
Proof.
  unfold mem_string. rewrite existsb_exists. split.
  - intros [y [Hy E]]. apply String.eqb_eq in E. now subst.
  - intros H. exists x. split; [assumption|apply String.eqb_refl].
Qed.

Lemma unique_from_in (seen l : list string) (x : string) :
  In x (unique_from seen l) <-> In x l /\ ~ In x seen.
Proof.
  revert seen. induction l as [|y l IH]; intros seen; simpl; [tauto|].
  destruct (mem_string y seen) eqn:M.
  - apply mem_string_in in M. rewrite IH. split.
    + tauto.
    + intros [[->|H] N]; [contradiction|auto].
  - assert (N : ~ In y seen) by (rewrite <- mem_string_in, M; discriminate).
    simpl. rewrite IH. simpl. split.
    + intros [<-|[H1 H2]]; auto.
    + intros [[<-|H1] H2]; [now left|].
      destruct (String.eqb_spec y x) as [E|E]; [now left|right; tauto].
Qed.

Lemma unique_from_nodup (seen l : list string) : NoDup (unique_from seen l).
Proof.
  revert seen. induction l as [|y l IH]; intros seen; simpl; [constructor|].
  destruct (mem_string y seen); [apply IH|].
  constructor; [|apply IH].
  rewrite unique_from_in. simpl. tauto.
Qed.

Lemma append_length (s t : string) :
  String.length (s ++ t)%string = (String.length s + String.length t)%nat.
Proof. induction s as [|c s IH]; simpl; [reflexivity|]. now rewrite IH. Qed.

Lemma overlay_name_injective (c d : string) : overlay_name c = overlay_name d -> c = d.
Proof.
  unfold overlay_name. generalize " Growth > 20%" as t. intros t. revert d.
  induction c as [|a c IH]; intros [|b d] H; simpl in H.
  - reflexivity.
  - apply (f_equal String.length) in H. simpl in H. rewrite append_length in H. lia.
  - apply (f_equal String.length) in H. simpl in H. rewrite append_length in H. lia.
  - injection H as -> H. f_equal. now apply IH.
Qed.

Lemma distinct_images {X Y : Type} (f : X -> Y) (xs : list X) :
  (forall x y, f x = f y -> x = y) -> NoDup xs -> NoDup (map f xs).
Proof.
  intros Inj D. induction D as [|x xs Hx D IH]; simpl; constructor; [|exact IH].
  intros Hin. apply in_map_iff in Hin. destruct Hin as [y [E Hy]].
  apply Inj in E. subst y. contradiction.
Qed.

(** X8.  The time-series figure gets one shaded trace per label of the
    table, in order of first appearance and under pairwise different
    names; the trace of a label holds the flagged buckets of that label
    and no other bucket, in table order, so every flagged bucket is
    drawn in the trace of its label and in no other. *)
Theorem growth_overlays_partition (t : list GrowthBucket) :
  map fst (growth_overlays t) = map overlay_name (unique (map bucket_Category t))
  /\ NoDup (map fst (growth_overlays t))
  /\ (forall c, In c (map bucket_Category t) <->
                In (overlay_name c, growth_data t c) (growth_overlays t))
  /\ Forall (fun ov =>
               exists c, In c (map bucket_Category t)
                         /\ ov = (overlay_name c, growth_data t c)
                         /\ snd ov = filter (fun b => String.eqb (bucket_Category b) c
                                                      && Significant_Growth b) t)
       (growth_overlays t)
  /\ (forall b ov, In b t -> Significant_Growth b = true ->
        In ov (growth_overlays t) ->
        (In b (snd ov) <-> fst ov = overlay_name (bucket_Category b))).
Proof.
  assert (U : forall c, In c (unique (map bucket_Category t)) <-> In c (map bucket_Category t)).
  { intros c. unfold unique. rewrite unique_from_in. simpl. tauto. }
  assert (M : forall ov, In ov (growth_overlays t) ->
                exists c, In c (map bucket_Category t)
                          /\ ov = (overlay_name c, growth_data t c)).
  { intros ov H. unfold growth_overlays in H. apply in_map_iff in H.
    destruct H as [c [<- Hc]]. exists c. split; [now apply U|reflexivity]. }
  split; [|split; [|split; [|split]]].
  - unfold growth_overlays. now rewrite map_map.
  - unfold growth_overlays. rewrite map_map. simpl.
    apply distinct_images.
    + intros c d. apply overlay_name_injective.
    + apply unique_from_nodup.
  - intros c. rewrite <- U. unfold growth_overlays. rewrite in_map_iff. split.
    + intros H. exists c. auto.
    + intros [d [E Hd]]. injection E as E _.
      apply overlay_name_injective in E. now subst.
  - apply Forall_forall. intros ov H. destruct (M ov H) as [c [Hc ->]].
    exists c. split; [assumption|]. split; [reflexivity|].
    simpl. unfold growth_data, cat_data. apply filter_twice.
  - intros b ov Hb Hs H. destruct (M ov H) as [c [_ ->]]. simpl.
    unfold growth_data, cat_data. rewrite !filter_In. split.
    + intros [[_ E] _]. apply String.eqb_eq in E. now rewrite E.
    + intros E. apply overlay_name_injective in E. subst c.
      rewrite String.eqb_refl. auto.
Qed.

Lemma growth_overlays_partition_witness :
  In (mkBucket (mkTimestamp 2018 4 1 0) "BUSINESS" (of_Z 5000000) (of_Z 499) true)
     (growth_data (prepare_time_series_data to_datetime_iso example_apps) "BUSINESS").
Proof.
  apply (proj2 (proj2 (proj2 (proj2
           (growth_overlays_partition
              (prepare_time_series_data to_datetime_iso example_apps)))))
           (mkBucket (mkTimestamp 2018 4 1 0) "BUSINESS" (of_Z 5000000) (of_Z 499) true)
           (overlay_name "BUSINESS",
            growth_data (prepare_time_series_data to_datetime_iso example_apps) "BUSINESS")).
  - vm_compute. right. left. reflexivity.
  - reflexivity.
  - vm_compute. left. reflexivity.
  - reflexivity.
Defined.

(** X9.  In the figure drawn from the Growth table, a shaded bucket is
    never the first bucket of its label: the table holds an earlier
    bucket of the same label, of an earlier month, and the shaded
    bucket's change against it is above 0.20.  A label with a single
    month is never shaded. *)
Theorem shaded_buckets_follow_another
  (to_datetime : list (option string) -> list (option Timestamp))
  (df_apps : list RawRecord) :
  let out := prepare_time_series_data to_datetime df_apps in
  Forall (fun ov =>
            Forall (fun b =>
                      fgt (MoM_Growth b) (of_decimal false 20 (-2)) = true
                      /\ exists l1 a l2 l3,
                           out = l1 ++ a :: l2 ++ b :: l3
                           /\ bucket_Category a = bucket_Category b
                           /\ ts_compare (bucket_Month a) (bucket_Month b) = Lt)
                   (snd ov))
         (growth_overlays out).
Proof.
  intros out. apply Forall_forall. intros ov Hov.
  unfold growth_overlays in Hov. apply in_map_iff in Hov. destruct Hov as [c [<- _]].
  simpl. apply Forall_forall. intros b Hb.
  unfold growth_data, cat_data in Hb. rewrite !filter_In in Hb.
  destruct Hb as [[Hb _] Hs].
  apply in_split in Hb. destruct Hb as [l1 [l3 H]].
  pose proof H as G. apply growth_at in G. destruct G as [Hg Hf].
  rewrite Hf in Hs. split; [exact Hs|].
  unfold last_of in Hg.
  destruct (find (fun p => String.eqb (fst p) (bucket_Category b))
              (rev (map (fun o => (bucket_Category o, bucket_Installs o)) l1) ++ []))
    as [x|] eqn:F.
  - apply find_some in F. destruct F as [Hx Ex].
    rewrite app_nil_r in Hx. apply in_rev in Hx. apply in_map_iff in Hx.
    destruct Hx as [a [<- Ha]]. simpl in Ex. apply String.eqb_eq in Ex.
    apply in_split in Ha. destruct Ha as [u [w ->]].
    rewrite <- app_assoc in H. simpl in H.
    exists u, a, w, l3. split; [exact H|]. split; [exact Ex|].
    pose proof (months_increase to_datetime df_apps u w l3 a b H) as L.
    unfold key_compare in L. simpl in L. rewrite Ex, string_compare_refl in L.
    apply lex_lt in L. destruct L as [L|[_ L]]; [exact L|discriminate L].
  - simpl in Hg. rewrite Hg in Hs. vm_compute in Hs. discriminate Hs.
Qed.

(** ** The page *)

Section PresentationFacts.
Variables Figure Trace : Type.
Variable get_choropleth : list GeoRecord -> Figure.
Variable px_line : list GrowthBucket -> Figure.
Variable px_area : list GrowthBucket -> list Trace.
Variable update_traces : string -> list Trace -> list Trace.
Variable add_traces : Figure -> list Trace -> Figure.
Variable update_layout : Figure -> Figure.

(** X10.  The page has two tabs, each with one graph and one warning.
    In each tab exactly one of the two is visible: the graph holds a
    figure, and the warning is styled [display: none], when the hour is
    in the tab's window ([18, 20) for the map, [18, 21) for the chart);
    otherwise the graph is empty and the warning is red and bold.
    Whenever the map is visible the chart is visible too. *)
Theorem page_shows_figure_or_warning (choropleth : list GeoRecord)
  (time_series : list GrowthBucket) (now : datetime) :
  exists title style map_figure map_style chart_figure chart_style,
    app_layout Figure Trace get_choropleth px_line px_area update_traces add_traces
      update_layout choropleth time_series now
    = Div Figure
        [ H1 Figure title style;
          Tabs Figure
            [ Tab Figure "Global Choropleth Map"
                [ Graph Figure "choropleth-map" map_figure;
                  P Figure "Map is only visible between 6 PM and 8 PM IST." map_style ];
              Tab Figure "Time Series Chart"
                [ Graph Figure "time-series-chart" chart_figure;
                  P Figure "Chart is only visible between 6 PM and 9 PM IST." chart_style ] ] ]
    /\ (map_figure = Some (get_choropleth choropleth) /\ map_style = [("display", "none")]
        /\ 18 <= hour now < 20
        \/ map_figure = None /\ map_style = [("color", "red"); ("fontWeight", "bold")]
           /\ ~ 18 <= hour now < 20)
    /\ (chart_figure = Some (plot_time_series Figure Trace px_line px_area update_traces
                               add_traces update_layout time_series)
        /\ chart_style = [("display", "none")]
        /\ 18 <= hour now < 21
        \/ chart_figure = None /\ chart_style = [("color", "red"); ("fontWeight", "bold")]
           /\ ~ 18 <= hour now < 21)
    /\ (map_figure <> None -> chart_figure <> None).
Proof.
  unfold app_layout. do 6 eexists. split; [reflexivity|].
  unfold show_map, show_chart.
  destruct (18 <=? hour now) eqn:A; destruct (hour now <? 20) eqn:B;
    destruct (hour now <? 21) eqn:C; simpl;
    rewrite ?Z.leb_le, ?Z.leb_gt, ?Z.ltb_lt, ?Z.ltb_ge in *;
    try lia;
    (split; [|split]);
    try (left; repeat split; lia);
    try (right; repeat split; lia);
    try (intros H; try discriminate; now contradiction H).
Qed.
End PresentationFacts.

(** ** The country column *)






